(** * Linguist Helper: text normalizer, tokenizer adapter, content extractor

    A shallow embedding of the two [app.py] programs of the repository

      - [src/linguist_assistant/app.py]                              (module [Simple])
      - [src/linguist_assistant/Linguist_Assistant/linguist_assistant/app.py]
                                                                    (module [Universal])

    restricted to their three core functions [tokenize_text],
    [clean_text_final] and [get_content_universal], and to the parts of the
    two pages that call them (modules [SimplePage] and [UniversalPage]); the
    widgets and the spreadsheet writers are left out.

    Python strings are sequences of Unicode code points; they are embedded
    as lists of code points.  The library calls the functions make
    ([html.unescape], [requests.get], [BeautifulSoup], [trafilatura.extract],
    the segmentation engines) are not part of the repository: they are
    fields of the records [Lib], [Web] and of the engine records, and every
    theorem quantifies over them. *)

From Stdlib Require Import List Bool Arith NArith ZArith Lia String Ascii.
From Stdlib Require Import Permutation DecimalNat.
From ExtLib Require Import Structures.Monad Structures.MonadExc.
From ExtLib Require Import Data.Monads.EitherMonad.
Import ListNotations.
Import MonadNotation.
Local Open Scope monad_scope.

Set Implicit Arguments.

(* ===================================================================== *)
(** * Python strings                                                      *)
(* ===================================================================== *)

Module Py.

(** A character is a Unicode code point, a [str] a sequence of them. *)
Definition char := N.
Definition str := list char.

Local Open Scope N_scope.

(** An ASCII literal of the source, as code points. *)
Definition lit (s : string) : str :=
  List.map N_of_ascii (list_ascii_of_string s).

(** The string of one line feed. *)
Definition newline : str := [10].

Definition char_eqb (a b : char) : bool := N.eqb a b.

Fixpoint str_eqb (a b : str) : bool :=
  match a, b with
  | [], [] => true
  | x :: a', y :: b' => char_eqb x y && str_eqb a' b'
  | _, _ => false
  end.

Definition in_range (lo hi c : char) : bool := (N.leb lo c && N.leb c hi)%bool.

(** [str.isspace] on one character, which is also the class [\s] of [re]
    on [str] patterns: the characters of bidirectional type WS, B or S and
    of category Zs. *)
Definition isspace (c : char) : bool :=
  (in_range 9 13 c || in_range 28 31 c || char_eqb c 32
   || char_eqb c 133 || char_eqb c 160 || char_eqb c 5760
   || in_range 8192 8202 c || char_eqb c 8232 || char_eqb c 8233
   || char_eqb c 8239 || char_eqb c 8287 || char_eqb c 12288)%bool.

(** The line boundaries of [str.splitlines]: U+000A..U+000D,
    U+001C..U+001E, U+0085, U+2028 and U+2029 (a carriage return followed
    by a line feed is one boundary). *)
Definition is_linebreak (c : char) : bool :=
  (in_range 10 13 c || in_range 28 30 c || char_eqb c 133
   || char_eqb c 8232 || char_eqb c 8233)%bool.

(** Truth value of a string: [if text], [if ln]. *)
Definition truthy (s : str) : bool :=
  match s with [] => false | _ :: _ => true end.

Fixpoint lstrip (s : str) : str :=
  match s with
  | [] => []
  | c :: r => if isspace c then lstrip r else s
  end.

Definition rstrip (s : str) : str := rev (lstrip (rev s)).

(** [s.strip()] *)
Definition strip (s : str) : str := rstrip (lstrip s).

(** [s.split()]: the maximal runs of non-whitespace characters, in order. *)
Fixpoint split (s : str) : list str :=
  match s with
  | [] => []
  | c :: r =>
      if isspace c then split r
      else match r with
           | [] => [[c]]
           | c' :: _ =>
               if isspace c' then [c] :: split r
               else match split r with
                    | w :: ws => (c :: w) :: ws
                    | [] => [[c]]
                    end
           end
  end.

(** [s.splitlines()].  [cur] is the current line, reversed; [after_cr]
    records that the previous character was a carriage return, whose
    following line feed belongs to the same boundary. *)
Fixpoint splitlines_from (after_cr : bool) (cur : str) (s : str) : list str :=
  match s with
  | [] => match cur with [] => [] | _ :: _ => [rev cur] end
  | c :: r =>
      if (after_cr && char_eqb c 10)%bool then splitlines_from false cur r
      else if is_linebreak c then rev cur :: splitlines_from (char_eqb c 13) [] r
      else splitlines_from false (c :: cur) r
  end.

Definition splitlines (s : str) : list str := splitlines_from false [] s.

(** [sep.join(parts)] *)
Fixpoint join (sep : str) (parts : list str) : str :=
  match parts with
  | [] => []
  | [p] => p
  | p :: rest => p ++ sep ++ join sep rest
  end.

Fixpoint startswith (p s : str) : bool :=
  match p, s with
  | [], _ => true
  | x :: p', y :: s' => char_eqb x y && startswith p' s'
  | _ :: _, [] => false
  end.

(** [p in s] on strings: [p] occurs in [s] as a substring. *)
Fixpoint contains (p s : str) : bool :=
  (startswith p s || match s with [] => false | _ :: r => contains p r end)%bool.

(** [re.sub(r"\s+", " ", s)]: every maximal whitespace run becomes one
    space.  [in_run] tells that the previous character was whitespace. *)
Fixpoint sub_ws_from (in_run : bool) (s : str) : str :=
  match s with
  | [] => []
  | c :: r =>
      if isspace c
      then (if in_run then sub_ws_from true r else 32 :: sub_ws_from true r)
      else c :: sub_ws_from false r
  end.

Definition sub_ws (s : str) : str := sub_ws_from false s.

(** [re.sub] of a one-character class by the empty string, and by a
    replacement character. *)
Definition sub_class_empty (cls : char -> bool) (s : str) : str :=
  filter (fun c => negb (cls c)) s.

Definition sub_class_char (cls : char -> bool) (by_c : char) (s : str) : str :=
  List.map (fun c => if cls c then by_c else c) s.

End Py.

Import Py.
Local Open Scope N_scope.

(* ===================================================================== *)
(** * The outside world                                                   *)
(* ===================================================================== *)

(** What the programs take from the standard library. *)
Record Lib := {
  html_unescape : str -> str       (* html.unescape *)
}.

(** [html.unescape] returns its argument when it holds no ampersand
    (the first line of its body). *)
Definition unescape_plain (L : Lib) : Prop :=
  forall s, ~ In 38 s -> html_unescape L s = s.

(** A Python exception, with what [str(e)] gives. *)
Record exn := Exception { exn_str : str }.

(** A computation that returns or raises. *)
Definition result := sum exn.

(** [try: body  except Exception as e: handler] around a body whose both
    branches return. *)
Definition try_except {A : Type} (body : result A) (handler : exn -> A) : A :=
  match body with
  | inr a => a
  | inl e => handler e
  end.

(** ** The document tree of BeautifulSoup *)

(** An attribute value: a string, or a list of strings for the
    multi-valued attributes ([class] among them). *)
Inductive attr_value :=
| AttrStr (v : str)
| AttrList (vs : list str).

(** A page element.  The [BeautifulSoup] object is itself a [Tag]. *)
#[warnings="-register-all"]
Inductive node :=
| NavigableString (s : str)
| Comment (s : str)
| Tag (name : str) (attrs : list (str * attr_value)) (contents : list node).

Definition is_named (names : list str) (n : node) : bool :=
  match n with
  | Tag name _ _ => existsb (str_eqb name) names
  | _ => false
  end.

Fixpoint get_attr (key : str) (attrs : list (str * attr_value)) : option attr_value :=
  match attrs with
  | [] => None
  | (k, v) :: rest => if str_eqb k key then Some v else get_attr key rest
  end.

(** A string given as a search value against the value of an attribute: a
    list matches through any of its items or through its items joined by
    spaces, a missing attribute does not match. *)
Definition value_matches (have : option attr_value) (want : str) : bool :=
  match have with
  | None => false
  | Some (AttrStr v) => str_eqb v want
  | Some (AttrList vs) => (existsb (fun v => str_eqb v want) vs
                           || str_eqb (join [32] vs) want)%bool
  end.

(** The test of [find(names, attrs)] on one element. *)
Definition matches (names : list str) (wanted : list (str * str)) (n : node) : bool :=
  match n with
  | Tag _ attrs _ =>
      (is_named names n
       && forallb (fun kv => value_matches (get_attr (fst kv) attrs) (snd kv)) wanted)%bool
  | _ => false
  end.

(** [n.descendants]: the elements below [n], in document order. *)
Fixpoint descendants (n : node) : list node :=
  match n with
  | Tag _ _ cs => flat_map (fun c => c :: descendants c) cs
  | _ => []
  end.

(** [n.find(names, attrs)]: the first matching descendant, or [None]. *)
Definition find (names : list str) (wanted : list (str * str)) (n : node) : option node :=
  List.find (matches names wanted) (descendants n).

(** [n(names)], that is [n.find_all(names)]. *)
Definition find_all (names : list str) (n : node) : list node :=
  filter (is_named names) (descendants n).

(** The tree left by [for tag in n(names): tag.decompose()]: every
    descendant of [n] with one of the names is gone, with all below it. *)
Fixpoint decompose_all (names : list str) (n : node) : node :=
  match n with
  | Tag name attrs cs =>
      Tag name attrs
          (flat_map (fun c => if is_named names c then [] else [decompose_all names c]) cs)
  | _ => n
  end.

(** The strings [get_text] collects: the text of the tree in document
    order, comments left out. *)
Fixpoint all_strings (n : node) : list str :=
  match n with
  | NavigableString s => [s]
  | Comment _ => []
  | Tag _ _ cs => flat_map all_strings cs
  end.

(** [n.get_text(separator=sep)] *)
Definition get_text (sep : str) (n : node) : str := join sep (all_strings n).

(** ** The network and the extraction library *)

Definition bytes := list Byte.byte.

(** The response of [requests.get]: [http_error] is the message of the
    [HTTPError] that [raise_for_status] builds from the response. *)
Record Response := {
  status_code : Z;
  http_error : str;
  content : bytes
}.

Record Web := {
  requests_get : str -> result Response;          (* requests.get(url, headers=.., timeout=12) *)
  BeautifulSoup : bytes -> result node;           (* BeautifulSoup(content, 'html.parser') *)
  TRAFILATURA_AVAILABLE : bool;
  trafilatura_extract : bytes -> result (option str)
    (* trafilatura.extract(content, include_comments=False, favor_precision=True) *)
}.

(** [res.raise_for_status()] *)
Definition raise_for_status (res : Response) : result unit :=
  if ((400 <=? status_code res)%Z && (status_code res <? 600)%Z)%bool
  then raise (Exception (http_error res))
  else ret tt.

(** The class of U+200B..U+200D and U+FEFF, used by both programs. *)
Definition zero_width (c : char) : bool :=
  (in_range 8203 8205 c || char_eqb c 65279)%bool.

(* ===================================================================== *)
(** * [src/linguist_assistant/app.py]                                     *)
(* ===================================================================== *)

Module Simple.

(** The two optional segmenters. *)
Record Engines := {
  ATTACUT_AVAILABLE : bool;
  attacut_tokenize : str -> result (list str);    (* attacut.tokenize(text) *)
  DEEPCUT_AVAILABLE : bool;
  deepcut_tokenize : str -> result (list str)     (* from deepcut import tokenize; tokenize(text) *)
}.

(** The [try] covers the three branches; its handler splits on
    whitespace. *)
Definition tokenize_text (E : Engines) (text : str) : list str :=
  if negb (truthy text) then []
  else
    try_except
      (if ATTACUT_AVAILABLE E then attacut_tokenize E text
       else if DEEPCUT_AVAILABLE E then deepcut_tokenize E text
       else ret (split text))
      (fun _ => split text).

Definition clean_text_final (L : Lib) (text : str) : str :=
  if negb (truthy text) then []
  else
    let text := sub_class_empty zero_width text in
    let text := html_unescape L text in
    strip (sub_ws text).

Definition unwanted : list str :=
  List.map lit ["script"; "style"; "nav"; "footer"; "header"; "aside";
                "button"; "form"; "iframe"; "noscript"]%string.

Definition targets : list (list (str * str)) :=
  List.map (fun kv => [(lit (fst kv), lit (snd kv))])
    [("class", "EntryReaderInner"); ("id", "EntryReader_0");
     ("class", "article-body"); ("itemprop", "articleBody");
     ("class", "content-detail"); ("class", "news-detail");
     ("class", "story-body"); ("class", "article-content");
     ("role", "main")]%string.

Definition target_tags : list str :=
  List.map lit ["div"; "article"; "section"; "main"]%string.

(** The [for attrs in targets] loop: the text it returns, or [None] when
    it runs to its end.  ([if node] holds for every element that [find]
    returns: a [Tag] is true even without contents.) *)
Fixpoint sniper (L : Lib) (soup : node) (rules : list (list (str * str))) : option str :=
  match rules with
  | [] => None
  | attrs :: rest =>
      match find target_tags attrs soup with
      | Some node => Some (clean_text_final L (get_text newline node))
      | None => sniper L soup rest
      end
  end.

(** What follows the loop. *)
Definition sweep (L : Lib) (soup : node) : str :=
  let raw_text := get_text newline soup in
  let cleaned := clean_text_final L raw_text in
  if Nat.ltb 100 (List.length cleaned) then cleaned else [].

(** The assignment [res.encoding = res.apparent_encoding] is left out: the
    parser is given [res.content], the bytes, which it does not change. *)
Definition get_content_universal (L : Lib) (W : Web) (url : str) : str :=
  try_except
    (res <- requests_get W url ;;
     raise_for_status res ;;
     soup <- BeautifulSoup W (content res) ;;
     let soup := decompose_all unwanted soup in
     match sniper L soup targets with
     | Some text => ret text
     | None => ret (sweep L soup)
     end)
    (fun _ => []).

End Simple.

(* ===================================================================== *)
(** * [src/linguist_assistant/Linguist_Assistant/linguist_assistant/app.py] *)
(* ===================================================================== *)

Module Universal.

(** The deepcut engine.  Its calls act on a session (the loaded module and
    the TensorFlow graph), which they may change whether they return or
    raise. *)
Record Deepcut := {
  session : Type;
  DEEPCUT_AVAILABLE : bool;
  tokenize : str -> session -> result (list str) * session;
    (* from deepcut import tokenize; tokenize(text) *)
  reload : session -> result unit * session
    (* tf.keras.backend.clear_session(); importlib.reload(deepcut) *)
}.

(** The first [try] calls deepcut; its handler reloads and calls again
    inside a second [try], whose handler splits on whitespace. *)
Definition tokenize_text (D : Deepcut) (text : str) (s : session D)
  : list str * session D :=
  if (negb (DEEPCUT_AVAILABLE D) || negb (truthy text))%bool
  then ((if truthy text then split text else []), s)
  else
    match tokenize D text s with
    | (inr tokens, s) => (tokens, s)
    | (inl e1, s) =>
        match reload D s with
        | (inr _, s) =>
            match tokenize D text s with
            | (inr tokens, s) => (tokens, s)
            | (inl e2, s) => (split text, s)
            end
        | (inl e2, s) => (split text, s)
        end
    end.

(** [RE_CLEAN] *)
Definition RE_CLEAN : char -> bool := zero_width.

(** What [RE_KEEP] keeps: a-z, A-Z, U+0E01..U+0E2E, U+0E30..U+0E4C, 0-9,
    the period and whitespace. *)
Definition kept_letter (c : char) : bool :=
  (in_range 97 122 c || in_range 65 90 c
   || in_range 3585 3630 c || in_range 3632 3660 c
   || in_range 48 57 c || char_eqb c 46)%bool.

Definition kept (c : char) : bool := (kept_letter c || isspace c)%bool.

(** [RE_KEEP], a negated class. *)
Definition RE_KEEP (c : char) : bool := negb (kept c).

Definition JUNK_KEYWORDS : list str :=
  [ [3627; 3623; 3618];
    [3604; 3623; 3591];
    [3650; 3590; 3625; 3603; 3634];
    [3629; 3656; 3634; 3609; 3605; 3656; 3629];
    [3588; 3621; 3636; 3585];
    [3627; 3609; 3657; 3634; 3649; 3619; 3585];
    [3648; 3617; 3609; 3641];
    lit "Login" ].

(** The test of the [continue]: [len(ln) < 40 and any(j in ln ...)]. *)
Definition is_junk (ln : str) : bool :=
  (Nat.ltb (List.length ln) 40
   && existsb (fun j => contains j ln) JUNK_KEYWORDS)%bool.

(** The [for ln in text.splitlines()] loop; [lines] is the list built so
    far. *)
Fixpoint line_loop (todo : list str) (lines : list str) : list str :=
  match todo with
  | [] => lines
  | ln :: rest =>
      let ln := strip ln in
      if is_junk ln then line_loop rest lines
      else if truthy ln then line_loop rest (lines ++ [ln])
      else line_loop rest lines
  end.

Definition clean_text_final (L : Lib) (text : str) : str :=
  if negb (truthy text) then []
  else
    let lines := line_loop (splitlines text) [] in
    let text := join newline lines in
    let text := html_unescape L text in
    let text := sub_class_empty RE_CLEAN text in
    let text := sub_class_char RE_KEEP 32 text in
    strip (sub_ws text).

Definition targets : list (list (str * str)) :=
  List.map (fun kv => [(lit (fst kv), lit (snd kv))])
    [("class", "EntryReaderInner"); ("id", "EntryReader_0");
     ("class", "article-body"); ("itemprop", "articleBody");
     ("class", "content-detail"); ("class", "news-detail");
     ("class", "story-body"); ("role", "main")]%string.

Definition target_tags : list str :=
  List.map lit ["div"; "article"; "section"]%string.

(** The names given to [node(...)] inside a matched element. *)
Definition junk_names : list str :=
  List.map lit ["script"; "style"; "div.ads"; "div.related"]%string.

Definition unwanted : list str :=
  List.map lit ["script"; "style"; "nav"; "footer"; "header"; "aside";
                "button"; "form"; "iframe"]%string.

Definition SNIPER : str := lit "Sniper (Targeted)".
Definition AI : str := lit "AI (Trafilatura)".
Definition SWEEP : str := lit "Fallback (Sweep)".
Definition ERROR : str := lit "Error: ".

(** Plan 1, the [for attrs in targets] loop: what it returns, or [None]
    when it runs to its end. *)
Fixpoint sniper (L : Lib) (soup : node) (rules : list (list (str * str)))
  : option (str * str) :=
  match rules with
  | [] => None
  | attrs :: rest =>
      match find target_tags attrs soup with
      | Some node =>
          let node := decompose_all junk_names node in
          Some (clean_text_final L (get_text newline node), SNIPER)
      | None => sniper L soup rest
      end
  end.

(** Plan 2: what it returns, [None] when it falls through. *)
Definition ai (L : Lib) (W : Web) (res : Response) : result (option (str * str)) :=
  if TRAFILATURA_AVAILABLE W then
    extracted <- trafilatura_extract W (content res) ;;
    match extracted with
    | Some text =>
        if truthy text then ret (Some (clean_text_final L text, AI)) else ret None
    | None => ret None
    end
  else ret None.

(** Plan 3. *)
Definition sweep (L : Lib) (soup : node) : str * str :=
  let soup := decompose_all unwanted soup in
  let raw_text := get_text newline soup in
  (clean_text_final L raw_text, SWEEP).

(** As in the simpler program, the assignment to [res.encoding] is left
    out.  Plan 2 reads [res.content], not the tree. *)
Definition get_content_universal (L : Lib) (W : Web) (url : str) : str * str :=
  try_except
    (res <- requests_get W url ;;
     raise_for_status res ;;
     soup <- BeautifulSoup W (content res) ;;
     match sniper L soup targets with
     | Some r => ret r
     | None =>
         r <- ai L W res ;;
         match r with
         | Some r => ret r
         | None => ret (sweep L soup)
         end
     end)
    (fun e => ([], ERROR ++ exn_str e)).

End Universal.

(* ===================================================================== *)
(** * The pages that call the three functions                             *)
(* ===================================================================== *)

(** [str(n)] of a natural number: its decimal digits. *)
Fixpoint digits (d : Decimal.uint) : str :=
  match d with
  | Decimal.Nil => []
  | Decimal.D0 d => 48 :: digits d
  | Decimal.D1 d => 49 :: digits d
  | Decimal.D2 d => 50 :: digits d
  | Decimal.D3 d => 51 :: digits d
  | Decimal.D4 d => 52 :: digits d
  | Decimal.D5 d => 53 :: digits d
  | Decimal.D6 d => 54 :: digits d
  | Decimal.D7 d => 55 :: digits d
  | Decimal.D8 d => 56 :: digits d
  | Decimal.D9 d => 57 :: digits d
  end.

Definition str_of_nat (n : nat) : str := digits (Nat.to_uint n).



Module SimplePage.




End SimplePage.

Module UniversalPage.

(** One dictionary of [results]. *)
Record Row := {
  Source : str;
  Raw : str;
  Tokens : list str;
  Method : str
}.

(** [[ln.strip() for ln in user_input.splitlines() if ln.strip()]] *)
Definition parse_items (user_input : str) : list str :=
  List.map strip (filter (fun ln => truthy (strip ln)) (splitlines user_input)).

Definition DIRECT_TEXT : str := lit "Direct Text".

(** The label of the text number [idx]: the word U+0E02 U+0E49 U+0E2D
    U+0E04 U+0E27 U+0E32 U+0E21, a space and the number. *)
Definition text_label (idx : nat) : str :=
  [3586; 3657; 3629; 3588; 3623; 3634; 3617; 32] ++ str_of_nat idx.

(** The loop over [as_completed(future_to_url)].  Each future is one call
    of [get_content_universal] on one item; [completed] lists the items in
    the order in which their futures complete.  The loop itself runs in the
    calling thread, so the calls of [tokenize_text] follow one another on
    the session of deepcut. *)
Fixpoint url_loop (L : Lib) (W : Web) (D : Universal.Deepcut)
         (completed : list str) (results : list Row) (s : Universal.session D)
  : list Row * Universal.session D :=
  match completed with
  | [] => (results, s)
  | url :: rest =>
      let (content, method) := Universal.get_content_universal L W url in
      if truthy content then
        let (tokens, s) := Universal.tokenize_text D content s in
        url_loop L W D rest
                 (results ++ [{| Source := url; Raw := content;
                                 Tokens := tokens; Method := method |}]) s
      else url_loop L W D rest results s
  end.

(** The loop [for idx, text in enumerate(items, 1)]; [idx] is the number
    of the first text of [todo]. *)
Fixpoint text_loop (L : Lib) (D : Universal.Deepcut) (idx : nat)
         (todo : list str) (results : list Row) (s : Universal.session D)
  : list Row * Universal.session D :=
  match todo with
  | [] => (results, s)
  | text :: rest =>
      let cleaned_text := Universal.clean_text_final L text in
      if truthy cleaned_text then
        let (tokens, s) := Universal.tokenize_text D cleaned_text s in
        text_loop L D (S idx) rest
                  (results ++ [{| Source := text_label idx; Raw := cleaned_text;
                                  Tokens := tokens; Method := DIRECT_TEXT |}]) s
      else text_loop L D (S idx) rest results s
  end.

End UniversalPage.

(* ===================================================================== *)
(** * Sample worlds and documents                                         *)
(* ===================================================================== *)

Module Samples.

(** A fragment of [html.unescape]: the references [&amp;] [&lt;] [&gt;]
    [&quot;], written with their semicolon, are replaced once, from left to
    right, and all other text is copied.  It is used below only on text
    whose every ampersand starts one of these four references, where
    [html.unescape] does the same.  [skip] counts the characters of a
    reference still to pass over. *)
Definition references : list (str * char) :=
  [(lit "&amp;", 38); (lit "&lt;", 60); (lit "&gt;", 62); (lit "&quot;", 34)].

Fixpoint unescape_from (skip : nat) (s : str) : str :=
  match s with
  | [] => []
  | c :: r =>
      match skip with
      | S k => unescape_from k r
      | O =>
          match List.find (fun e => startswith (fst e) s) references with
          | Some (name, ch) => ch :: unescape_from (List.length name - 1) r
          | None => c :: unescape_from 0 r
          end
      end
  end.

Definition stdlib : Lib := {| html_unescape := unescape_from 0 |}.

(** The [BeautifulSoup] object over the given top-level elements. *)
Definition soup_of (cs : list node) : node := Tag (lit "[document]") [] cs.

(** A server that answers every URL with status 200 and a page that
    parses to [doc]; trafilatura is not installed. *)
Definition page (doc : node) : Web :=
  {| requests_get := fun _ => inr {| status_code := 200; http_error := []; content := [] |};
     BeautifulSoup := fun _ => inr doc;
     TRAFILATURA_AVAILABLE := false;
     trafilatura_extract := fun _ => inr None |}.

(** A network on which every request times out. *)
Definition offline : Web :=
  {| requests_get := fun _ => inl (Exception (lit "Read timed out."));
     BeautifulSoup := fun _ => inr (soup_of []);
     TRAFILATURA_AVAILABLE := false;
     trafilatura_extract := fun _ => inr None |}.

Definition url : str := lit "https://example.org/news/1".

Definition class_ (v : string) : str * attr_value := (lit "class", AttrList [lit v]).

(** <article class="article-body">Text here</article><nav>Menu</nav> *)
Definition article_page : node :=
  soup_of [ Tag (lit "article") [class_ "article-body"] [NavigableString (lit "Text here")];
            Tag (lit "nav") [] [NavigableString (lit "Menu")] ].

(** <nav><div class="article-body">Hello</div></nav> *)
Definition target_in_nav : node :=
  soup_of [ Tag (lit "nav") []
              [Tag (lit "div") [class_ "article-body"] [NavigableString (lit "Hello")]] ].

(** <div class="article-body"></div> *)
Definition empty_target : node :=
  soup_of [ Tag (lit "div") [class_ "article-body"] [] ].

(** <p>hi</p> *)
Definition short_page : node :=
  soup_of [ Tag (lit "p") [] [NavigableString (lit "hi")] ].

(** <div class="article-body">Hello<div class="ads">BUY</div>
    <script>x=1</script></div> *)
Definition target_with_ad : node :=
  soup_of [ Tag (lit "div") [class_ "article-body"]
              [ NavigableString (lit "Hello");
                Tag (lit "div") [class_ "ads"] [NavigableString (lit "BUY")];
                Tag (lit "script") [] [NavigableString (lit "x=1")] ] ].

(** A deepcut whose every call raises. *)
Definition broken_deepcut : Universal.Deepcut :=
  {| Universal.session := unit;
     Universal.DEEPCUT_AVAILABLE := true;
     Universal.tokenize := fun _ s => (inl (Exception (lit "Session is closed")), s);
     Universal.reload := fun s => (inr tt, s) |}.

(** "Login", forty spaces, "x" *)
Definition padded_login : str := lit "Login" ++ repeat 32 40 ++ lit "x".

End Samples.

(* ===================================================================== *)
(** * Vocabulary of the statements                                        *)
(* ===================================================================== *)

(** The page at [url] was fetched with a status that [raise_for_status]
    accepts and parsed to [soup]. *)
Definition fetched (W : Web) (url : str) (res : Response) (soup : node) : Prop :=
  requests_get W url = inr res
  /\ ((status_code res < 400)%Z \/ (600 <= status_code res)%Z)
  /\ BeautifulSoup W (content res) = inr soup.

(** One of the three steps before the extraction raises [e]. *)
Inductive fetch_raises (W : Web) (url : str) (e : exn) : Prop :=
| raises_get :
    requests_get W url = inl e -> fetch_raises W url e
| raises_status res :
    requests_get W url = inr res ->
    (400 <= status_code res < 600)%Z ->
    e = Exception (http_error res) ->
    fetch_raises W url e
| raises_parse res :
    requests_get W url = inr res ->
    ((status_code res < 400)%Z \/ (600 <= status_code res)%Z) ->
    BeautifulSoup W (content res) = inl e ->
    fetch_raises W url e.

(** Some element below [soup] with one of the [tags] matches one of the
    [rules]. *)
Definition has_target (tags : list str) (rules : list (list (str * str))) (soup : node) : Prop :=
  exists n attrs,
    In n (descendants soup) /\ In attrs rules /\ matches tags attrs n = true.

(** The same, as a test. *)
Definition has_target_b (tags : list str) (rules : list (list (str * str))) (soup : node) : bool :=
  existsb (fun n => existsb (fun attrs => matches tags attrs n) rules) (descendants soup).

(** [attrs] is the first of the [rules], in their order, that finds an
    element, and [n] is the element it finds. *)
Definition first_match (tags : list str) (rules : list (list (str * str)))
           (soup : node) (attrs : list (str * str)) (n : node) : Prop :=
  exists before after,
    rules = before ++ attrs :: after
    /\ (forall a, In a before -> find tags a soup = None)
    /\ find tags attrs soup = Some n.

(** A method that reports a failure. *)
Definition indicates_failure (method : str) : bool :=
  (startswith (lit "Error") method || startswith (lit "Empty") method)%bool.

(** The shape of a normalized text. *)
Definition no_double_space (s : str) : Prop :=
  forall a c1 c2 b, s = a ++ c1 :: c2 :: b -> isspace c1 = true -> isspace c2 = false.

Definition trimmed (s : str) : Prop :=
  (forall c r, s = c :: r -> isspace c = false)
  /\ (forall r c, s = r ++ [c] -> isspace c = false).

(** The line filter as the specification words it: a line goes exactly
    when, stripped, it is shorter than 40 characters and holds a keyword. *)
Definition spec_filter_lines (text : str) : list str :=
  filter (fun ln => negb (Universal.is_junk ln)) (List.map strip (splitlines text)).

(** The characters a normalized text of the universal program is made
    of.  The two Thai ranges, U+0E01..U+0E2E and U+0E30..U+0E4C, lie in
    the Thai block. *)
Definition ascii_letter (c : char) : bool := (in_range 97 122 c || in_range 65 90 c)%bool.
Definition thai_letter (c : char) : bool := (in_range 3585 3630 c || in_range 3632 3660 c)%bool.
Definition digit (c : char) : bool := in_range 48 57 c.

Definition allowed (c : char) : bool :=
  (ascii_letter c || thai_letter c || digit c || char_eqb c 46 || char_eqb c 32)%bool.

Definition letter_or_space (c : char) : Prop :=
  Universal.kept_letter c = true \/ c = 32.

(** Plan 2 has nothing to return: trafilatura is not installed, or it
    returns [None] or the empty string. *)
Definition ai_nothing (W : Web) (res : Response) : Prop :=
  TRAFILATURA_AVAILABLE W = false
  \/ trafilatura_extract W (content res) = inr None
  \/ trafilatura_extract W (content res) = inr (Some []).

(** Some character of [s] is not whitespace. *)
Definition has_word (s : str) : Prop := exists c, In c s /\ isspace c = false.

(** Every whitespace character of [s] is a space and no two of them are
    adjacent; [after_ws] tells that a whitespace character precedes [s]. *)
Fixpoint spaced (after_ws : bool) (s : str) : bool :=
  match s with
  | [] => true
  | c :: r =>
      if isspace c then (char_eqb c 32 && negb after_ws && spaced true r)%bool
      else spaced false r
  end.

Definition all_space (s : str) : Prop := Forall (fun c => isspace c = true) s.

(** The whitespace of [s] is single spaces, none at either end. *)
Definition normalized (s : str) : Prop :=
  trimmed s
  /\ Forall (fun c => isspace c = true -> c = 32) s
  /\ no_double_space s.

(** The simpler [tokenize_text] ends in [text.split()]: no segmenter is
    installed, or the one that is called raises. *)
Definition simple_falls_back (E : Simple.Engines) (text : str) : Prop :=
  (Simple.ATTACUT_AVAILABLE E = true /\ exists e, Simple.attacut_tokenize E text = inl e)
  \/ (Simple.ATTACUT_AVAILABLE E = false /\ Simple.DEEPCUT_AVAILABLE E = true
      /\ exists e, Simple.deepcut_tokenize E text = inl e)
  \/ (Simple.ATTACUT_AVAILABLE E = false /\ Simple.DEEPCUT_AVAILABLE E = false).


(** What one row of the batch of URLs holds. *)
Definition url_row_ok (L : Lib) (W : Web) (D : Universal.Deepcut) (row : UniversalPage.Row) : Prop :=
  (UniversalPage.Raw row, UniversalPage.Method row) =
    Universal.get_content_universal L W (UniversalPage.Source row)
  /\ UniversalPage.Raw row <> []
  /\ exists s, UniversalPage.Tokens row =
               fst (Universal.tokenize_text D (UniversalPage.Raw row) s).

(** What the row of the text number [idx] holds. *)
Definition text_row_ok (L : Lib) (D : Universal.Deepcut) (idx : nat) (text : str)
           (row : UniversalPage.Row) : Prop :=
  UniversalPage.Source row = UniversalPage.text_label idx
  /\ UniversalPage.Raw row = Universal.clean_text_final L text
  /\ UniversalPage.Raw row <> []
  /\ UniversalPage.Method row = UniversalPage.DIRECT_TEXT
  /\ exists s, UniversalPage.Tokens row =
               fst (Universal.tokenize_text D (UniversalPage.Raw row) s).

(** A network that answers the first sample URL with an article and times
    out on every other one. *)
Definition one_good_url : Web :=
  {| requests_get := fun u =>
       if str_eqb u Samples.url
       then inr {| status_code := 200; http_error := []; content := [] |}
       else inl (Exception (lit "Read timed out."));
     BeautifulSoup := fun _ => inr Samples.article_page;
     TRAFILATURA_AVAILABLE := false;
     trafilatura_extract := fun _ => inr None |}.

(** No deepcut. *)
Definition no_deepcut : Universal.Deepcut :=
  {| Universal.session := unit;
     Universal.DEEPCUT_AVAILABLE := false;
     Universal.tokenize := fun _ s => (inr [], s);
     Universal.reload := fun s => (inr tt, s) |}.

(** The numbers of the texts that get a row, [idx] being the number of
    the first text of [todo]. *)
Fixpoint numbers_with_row (L : Lib) (idx : nat) (todo : list str) : list nat :=
  match todo with
  | [] => []
  | text :: rest =>
      if truthy (Universal.clean_text_final L text)
      then idx :: numbers_with_row L (S idx) rest
      else numbers_with_row L (S idx) rest
  end.

(* ===================================================================== *)
(** * Facts about the string primitives                                   *)
(* ===================================================================== *)

(** Turns the boolean tests on code points into linear arithmetic. *)
Ltac char_arith :=
  unfold Universal.RE_CLEAN, Universal.RE_KEEP, Universal.kept, Universal.kept_letter,
         zero_width, isspace, is_linebreak, in_range, char_eqb in *;
  repeat match goal with
         | H : _ = false |- _ => apply Bool.not_true_iff_false in H
         | |- _ = false => apply Bool.not_true_iff_false; intro
         end;
  repeat rewrite ?Bool.negb_true_iff, ?Bool.orb_true_iff, ?Bool.andb_true_iff,
                 ?N.leb_le, ?N.eqb_eq in *;
  lia.

Lemma letter_not_space c : Universal.kept_letter c = true -> isspace c = false.
Proof. intros H. char_arith. Qed.

Lemma str_eqb_eq a b : str_eqb a b = true -> a = b.
Proof.
  revert b; induction a as [|x a IH]; intros [|y b]; simpl; try discriminate; [reflexivity|].
  rewrite Bool.andb_true_iff. intros [H1 H2].
  apply N.eqb_eq in H1. f_equal; auto.
Qed.

(** ** Whitespace runs *)

Lemma sub_ws_spaced b s : spaced b (sub_ws_from b s) = true.
Proof.
  revert b; induction s as [|c r IH]; intros b; simpl; [reflexivity|].
  destruct (isspace c) eqn:Hc.
  - destruct b; [apply IH|].
    simpl. rewrite IH. reflexivity.
  - simpl. rewrite Hc. apply IH.
Qed.

Lemma spaced_weaken b s : spaced b s = true -> spaced false s = true.
Proof.
  destruct b; [|trivial].
  destruct s as [|c r]; simpl; [trivial|].
  destruct (isspace c); [|trivial].
  rewrite Bool.andb_false_r. discriminate.
Qed.

Lemma spaced_app_l b a t : spaced b (a ++ t) = true -> spaced b a = true.
Proof.
  revert b; induction a as [|c r IH]; intros b; simpl; [reflexivity|].
  destruct (isspace c).
  - rewrite !Bool.andb_true_iff. intros [[H1 H2] H3]. auto.
  - apply IH.
Qed.

Lemma spaced_app_r b a t : spaced b (a ++ t) = true -> spaced false t = true.
Proof.
  revert b; induction a as [|c r IH]; intros b; simpl.
  - apply spaced_weaken.
  - destruct (isspace c).
    + rewrite !Bool.andb_true_iff. intros [_ H]. eapply IH, H.
    + apply IH.
Qed.

Lemma spaced_no_double b s : spaced b s = true -> no_double_space s.
Proof.
  intros H a c1 c2 t -> Hc1.
  apply spaced_app_r in H. simpl in H. rewrite Hc1 in H.
  destruct (isspace c2); [|reflexivity].
  rewrite !Bool.andb_true_iff in H. simpl in H.
  destruct H as [_ [[_ H] _]]. discriminate.
Qed.

Lemma sub_ws_fixed b s : spaced b s = true -> sub_ws_from b s = s.
Proof.
  revert b; induction s as [|c r IH]; intros b; simpl; [reflexivity|].
  destruct (isspace c).
  - rewrite !Bool.andb_true_iff, Bool.negb_true_iff.
    intros [[H1 ->] H3]. apply N.eqb_eq in H1. subst c. f_equal. auto.
  - intros H. f_equal. auto.
Qed.

Lemma sub_ws_Forall (P : char -> Prop) b s :
  P 32 -> Forall P s -> Forall P (sub_ws_from b s).
Proof.
  intros H32 H. revert b. induction H as [|c r Hc Hr IH]; intros b; simpl; [constructor|].
  destruct (isspace c); [destruct b|]; auto.
Qed.

(** ** Stripping *)

Lemma lstrip_split s : exists t, s = t ++ lstrip s /\ all_space t.
Proof.
  induction s as [|c r [t [Ht Hs]]]; simpl.
  - exists []. split; [reflexivity|constructor].
  - destruct (isspace c) eqn:Hc.
    + exists (c :: t). split; [simpl; congruence|constructor; assumption].
    + exists []. split; [reflexivity|constructor].
Qed.

Lemma lstrip_head s c r : lstrip s = c :: r -> isspace c = false.
Proof.
  induction s as [|c0 r0 IH]; simpl; [discriminate|].
  destruct (isspace c0) eqn:Hc; [assumption|].
  intros [= <- _]. assumption.
Qed.

Lemma rstrip_split s : exists t, s = rstrip s ++ t /\ all_space t.
Proof.
  unfold rstrip. destruct (lstrip_split (rev s)) as [t [Ht Hs]].
  exists (rev t). split.
  - rewrite <- rev_app_distr, <- Ht, rev_involutive. reflexivity.
  - apply Forall_rev. assumption.
Qed.

Lemma rstrip_last s r c : rstrip s = r ++ [c] -> isspace c = false.
Proof.
  unfold rstrip. intros H.
  apply (f_equal (@rev char)) in H.
  rewrite rev_involutive, rev_app_distr in H. simpl in H.
  eapply lstrip_head, H.
Qed.

Lemma strip_split s : exists a b, s = a ++ strip s ++ b /\ all_space a /\ all_space b.
Proof.
  unfold strip.
  destruct (lstrip_split s) as [a [Ha Hsa]].
  destruct (rstrip_split (lstrip s)) as [b [Hb Hsb]].
  exists a, b. rewrite <- Hb. auto.
Qed.

Lemma strip_trimmed s : trimmed (strip s).
Proof.
  split.
  - intros c r H. unfold strip in H.
    destruct (rstrip_split (lstrip s)) as [t [Ht _]].
    rewrite H in Ht. simpl in Ht. eapply lstrip_head, Ht.
  - intros r c H. eapply rstrip_last, H.
Qed.

Lemma strip_Forall (P : char -> Prop) s : Forall P s -> Forall P (strip s).
Proof.
  destruct (strip_split s) as [a [b [H _]]]. intros HP.
  rewrite H in HP. apply Forall_app in HP as [_ HP].
  apply Forall_app in HP as [HP _]. assumption.
Qed.

Lemma strip_spaced s : spaced false s = true -> spaced false (strip s) = true.
Proof.
  destruct (strip_split s) as [a [b [H _]]]. intros Hs.
  rewrite H in Hs. apply spaced_app_r in Hs. eapply spaced_app_l, Hs.
Qed.

Lemma strip_fixed s : trimmed s -> strip s = s.
Proof.
  intros [Hh Hl]. unfold strip.
  assert (E : lstrip s = s).
  { destruct s as [|c r]; [reflexivity|]. simpl. rewrite (Hh c r eq_refl). reflexivity. }
  rewrite E. unfold rstrip.
  destruct (rev s) as [|c l] eqn:Hr.
  - apply (f_equal (@rev char)) in Hr. rewrite rev_involutive in Hr. subst s. reflexivity.
  - assert (Hs : s = rev l ++ [c]).
    { apply (f_equal (@rev char)) in Hr. rewrite rev_involutive in Hr. exact Hr. }
    simpl. rewrite (Hl _ _ Hs). simpl. symmetry. exact Hs.
Qed.

(** ** Lines *)

Lemma splitlines_one cur s :
  Forall (fun c => is_linebreak c = false) s ->
  cur ++ s <> [] ->
  splitlines_from false cur s = [rev cur ++ s].
Proof.
  intros H. revert cur. induction H as [|c r Hc Hr IH]; intros cur Hne; simpl.
  - rewrite app_nil_r in *. destruct cur; [congruence|reflexivity].
  - rewrite Hc. rewrite IH by (destruct r; discriminate).
    simpl. rewrite <- app_assoc. reflexivity.
Qed.

Lemma line_loop_filter todo lines :
  Universal.line_loop todo lines =
  lines ++ filter (fun ln => (negb (Universal.is_junk ln) && truthy ln)%bool)
                  (List.map strip todo).
Proof.
  revert lines; induction todo as [|ln rest IH]; intros lines; simpl.
  - rewrite app_nil_r. reflexivity.
  - destruct (Universal.is_junk (strip ln)); simpl; [apply IH|].
    destruct (truthy (strip ln)); [|apply IH].
    rewrite IH, <- app_assoc. reflexivity.
Qed.

(** ** Splitting on whitespace *)

Lemma split_nonempty s : has_word s -> split s <> [].
Proof.
  induction s as [|c r IH]; intros [x [Hin Hx]]; [destruct Hin|].
  simpl. destruct (isspace c) eqn:Hc.
  - apply IH. destruct Hin as [->|Hin]; [congruence|]. exists x. auto.
  - destruct r as [|c' r']; [discriminate|].
    destruct (isspace c'); [discriminate|].
    destruct (split (c' :: r')); discriminate.
Qed.

Lemma split_all_space s : all_space s -> split s = [].
Proof.
  induction 1 as [|c r Hc Hr IH]; simpl; [reflexivity|].
  rewrite Hc. assumption.
Qed.

(** ** The shape of what the normalizers return *)

Lemma keep_letter_or_ws s :
  Forall (fun c => Universal.kept_letter c = true \/ isspace c = true)
         (sub_class_char Universal.RE_KEEP 32 s).
Proof.
  unfold sub_class_char. apply Forall_forall. intros c Hc.
  apply in_map_iff in Hc as [x [<- _]].
  unfold Universal.RE_KEEP, Universal.kept.
  destruct (Universal.kept_letter x) eqn:Hl; simpl; [auto|].
  destruct (isspace x) eqn:Hs; simpl; auto.
Qed.

Lemma spaced_letters b s :
  spaced b s = true ->
  Forall (fun c => Universal.kept_letter c = true \/ isspace c = true) s ->
  Forall letter_or_space s.
Proof.
  intros Hs H. revert b Hs. induction H as [|c r Hc Hr IH]; intros b Hs; [constructor|].
  simpl in Hs. destruct (isspace c) eqn:Hw.
  - rewrite !Bool.andb_true_iff in Hs. destruct Hs as [[H1 _] H3].
    apply N.eqb_eq in H1. constructor; [right; assumption|eauto].
  - constructor; [|eauto]. destruct Hc as [Hc|Hc]; [left; assumption|congruence].
Qed.

(** What [Universal.clean_text_final] returns, whatever [html.unescape]
    does. *)
Lemma universal_clean_shape L x :
  let y := Universal.clean_text_final L x in
  Forall letter_or_space y /\ spaced false y = true /\ trimmed y.
Proof.
  unfold Universal.clean_text_final.
  destruct (truthy x); simpl.
  2:{ repeat split; try constructor; intros; try discriminate.
      destruct r; discriminate. }
  set (t := sub_class_char _ _ _).
  assert (Hs : spaced false (strip (sub_ws t)) = true)
    by apply strip_spaced, sub_ws_spaced.
  split; [|split; [assumption|apply strip_trimmed]].
  eapply spaced_letters; [exact Hs|].
  apply strip_Forall, sub_ws_Forall; [right; reflexivity|].
  apply keep_letter_or_ws.
Qed.

(** ** Normalized text under a second pass *)

Lemma sub_class_empty_fixed cls s :
  Forall (fun c => cls c = false) s -> sub_class_empty cls s = s.
Proof.
  unfold sub_class_empty. induction 1 as [|c r Hc Hr IH]; simpl; [reflexivity|].
  rewrite Hc. simpl. congruence.
Qed.

Lemma sub_class_char_fixed cls by_c s :
  Forall (fun c => cls c = false) s -> sub_class_char cls by_c s = s.
Proof.
  unfold sub_class_char. induction 1 as [|c r Hc Hr IH]; simpl; [reflexivity|].
  rewrite Hc. congruence.
Qed.

Lemma letter_or_space_plain c :
  letter_or_space c ->
  is_linebreak c = false /\ zero_width c = false /\ Universal.RE_KEEP c = false /\ c <> 38.
Proof.
  intros [H| ->].
  - repeat split.
    + char_arith.
    + char_arith.
    + unfold Universal.RE_KEEP, Universal.kept. rewrite H. reflexivity.
    + char_arith.
  - repeat split; try reflexivity. discriminate.
Qed.

Lemma simple_clean_keeps (L : Lib) (x : str) :
  unescape_plain L -> ~ In 38 x ->
  let y := Simple.clean_text_final L x in
  Forall (fun c => zero_width c = false) y /\ ~ In 38 y
  /\ spaced false y = true /\ trimmed y.
Proof.
  intros HL Hx. unfold Simple.clean_text_final.
  destruct (truthy x); simpl.
  2:{ repeat split; try constructor; intros; try discriminate; try tauto.
      destruct r; discriminate. }
  set (t := sub_class_empty zero_width x).
  assert (Ht : Forall (fun c => zero_width c = false /\ c <> 38) t).
  { apply Forall_forall. intros c Hc. unfold t, sub_class_empty in Hc.
    apply filter_In in Hc as [Hc Hz]. split.
    - destruct (zero_width c); [discriminate|reflexivity].
    - intros ->. contradiction. }
  assert (Hu : html_unescape L t = t).
  { apply HL. intros H. rewrite Forall_forall in Ht. apply (Ht _ H). reflexivity. }
  rewrite Hu.
  assert (Hy : Forall (fun c => zero_width c = false /\ c <> 38) (strip (sub_ws t))).
  { apply strip_Forall, sub_ws_Forall; [split; [reflexivity|discriminate]|assumption]. }
  repeat split.
  - eapply Forall_impl; [|exact Hy]. simpl. tauto.
  - intros H. rewrite Forall_forall in Hy. apply (Hy _ H). reflexivity.
  - apply strip_spaced, sub_ws_spaced.
  - apply strip_trimmed.
  - apply strip_trimmed.
Qed.

Lemma simple_clean_fixed (L : Lib) (y : str) :
  unescape_plain L ->
  Forall (fun c => zero_width c = false) y -> ~ In 38 y ->
  spaced false y = true -> trimmed y ->
  Simple.clean_text_final L y = y.
Proof.
  intros HL Hz Ha Hs Ht. unfold Simple.clean_text_final.
  destruct (truthy y) eqn:Hy; simpl; [|destruct y; [reflexivity|discriminate]].
  rewrite sub_class_empty_fixed by assumption.
  rewrite HL by assumption.
  unfold sub_ws. rewrite sub_ws_fixed by assumption.
  apply strip_fixed. assumption.
Qed.

Lemma universal_clean_again (L : Lib) (y : str) :
  unescape_plain L ->
  Forall letter_or_space y -> spaced false y = true -> trimmed y ->
  Universal.clean_text_final L y = if Universal.is_junk y then [] else y.
Proof.
  intros HL Hl Hs Ht. unfold Universal.clean_text_final.
  destruct (truthy y) eqn:Hy; simpl.
  2:{ destruct y; [|discriminate]. destruct (Universal.is_junk []); reflexivity. }
  assert (Hp : Forall (fun c => is_linebreak c = false /\ zero_width c = false
                                /\ Universal.RE_KEEP c = false /\ c <> 38) y).
  { eapply Forall_impl; [|exact Hl]. apply letter_or_space_plain. }
  unfold splitlines. rewrite splitlines_one.
  2:{ eapply Forall_impl; [|exact Hp]. simpl. tauto. }
  2:{ destruct y; discriminate. }
  rewrite line_loop_filter. simpl. rewrite (strip_fixed Ht).
  destruct (Universal.is_junk y); simpl.
  - rewrite HL by tauto. reflexivity.
  - rewrite Hy. simpl.
    rewrite HL.
    2:{ intros H. rewrite Forall_forall in Hp. apply (Hp _ H). reflexivity. }
    rewrite sub_class_empty_fixed.
    2:{ eapply Forall_impl; [|exact Hp]. simpl. tauto. }
    rewrite sub_class_char_fixed.
    2:{ eapply Forall_impl; [|exact Hp]. simpl. tauto. }
    unfold sub_ws. rewrite sub_ws_fixed by assumption.
    apply strip_fixed. assumption.
Qed.

(** The sample [html.unescape] copies text without ampersand. *)
Lemma sample_unescape_plain : unescape_plain Samples.stdlib.
Proof.
  intros s. simpl. induction s as [|c r IH]; intros H; [reflexivity|].
  assert (Hc : N.eqb 38 c = false).
  { apply N.eqb_neq. intros <-. apply H. left. reflexivity. }
  cbn -[N.eqb]. unfold char_eqb. rewrite Hc. simpl.
  f_equal. apply IH. intros Hr. apply H. right. assumption.
Qed.

(* ===================================================================== *)
(** * Facts about the extraction cascade                                  *)
(* ===================================================================== *)

Lemma raise_for_status_ok res :
  (status_code res < 400)%Z \/ (600 <= status_code res)%Z ->
  raise_for_status res = inr tt.
Proof.
  intros H. unfold raise_for_status.
  destruct (Z.leb_spec 400 (status_code res)); simpl; [|reflexivity].
  destruct (Z.ltb_spec (status_code res) 600); [lia|reflexivity].
Qed.

Lemma raise_for_status_raises res :
  (400 <= status_code res < 600)%Z ->
  raise_for_status res = inl (Exception (http_error res)).
Proof.
  intros H. unfold raise_for_status.
  destruct (Z.leb_spec 400 (status_code res)); simpl; [|lia].
  destruct (Z.ltb_spec (status_code res) 600); [reflexivity|lia].
Qed.

Lemma find_of_match tags attrs soup n :
  In n (descendants soup) -> matches tags attrs n = true ->
  exists m, find tags attrs soup = Some m.
Proof.
  intros Hin Hm. unfold find.
  destruct (List.find (matches tags attrs) (descendants soup)) as [m|] eqn:E.
  - exists m. reflexivity.
  - rewrite (find_none _ _ E n Hin) in Hm. discriminate.
Qed.

Lemma match_of_find tags attrs soup m :
  find tags attrs soup = Some m ->
  In m (descendants soup) /\ matches tags attrs m = true.
Proof. apply find_some. Qed.

Lemma no_target_no_find tags rules soup :
  ~ has_target tags rules soup ->
  forall attrs, In attrs rules -> find tags attrs soup = None.
Proof.
  intros H attrs Hin.
  destruct (find tags attrs soup) as [m|] eqn:E; [|reflexivity].
  exfalso. apply H. apply match_of_find in E as [E1 E2].
  exists m, attrs. auto.
Qed.

(** The first rule that finds an element, when some rule does. *)
Lemma first_match_exists tags rules soup :
  has_target tags rules soup ->
  exists attrs n, first_match tags rules soup attrs n.
Proof.
  intros [n [attrs [Hn [Hin Hm]]]].
  induction rules as [|a rest IH]; [destruct Hin|].
  destruct (find tags a soup) as [m|] eqn:E.
  - exists a, m, [], rest. repeat split; auto. intros ? [].
  - destruct Hin as [->|Hin].
    + destruct (find_of_match _ _ _ _ Hn Hm) as [m Hfm]. congruence.
    + destruct (IH Hin) as [attrs' [n' [before [after [H1 [H2 H3]]]]]].
      exists attrs', n', (a :: before), after. repeat split; auto.
      * simpl. congruence.
      * intros x [<-|Hx]; auto.
Qed.

Lemma simple_sniper_first L soup rules attrs n :
  first_match Simple.target_tags rules soup attrs n ->
  Simple.sniper L soup rules = Some (Simple.clean_text_final L (get_text newline n)).
Proof.
  intros [before [after [-> [Hb Hf]]]].
  induction before as [|a before IH]; simpl.
  - rewrite Hf. reflexivity.
  - rewrite (Hb a) by (left; reflexivity). apply IH.
    intros x Hx. apply Hb. right. assumption.
Qed.

Lemma simple_sniper_none L soup rules :
  (forall attrs, In attrs rules -> find Simple.target_tags attrs soup = None) ->
  Simple.sniper L soup rules = None.
Proof.
  induction rules as [|a rest IH]; intros H; simpl; [reflexivity|].
  rewrite (H a) by (left; reflexivity). apply IH.
  intros x Hx. apply H. right. assumption.
Qed.

Lemma universal_sniper_first L soup rules attrs n :
  first_match Universal.target_tags rules soup attrs n ->
  Universal.sniper L soup rules =
  Some (Universal.clean_text_final L
          (get_text newline (decompose_all Universal.junk_names n)),
        Universal.SNIPER).
Proof.
  intros [before [after [-> [Hb Hf]]]].
  induction before as [|a before IH]; simpl.
  - rewrite Hf. reflexivity.
  - rewrite (Hb a) by (left; reflexivity). apply IH.
    intros x Hx. apply Hb. right. assumption.
Qed.

Lemma universal_sniper_none L soup rules :
  (forall attrs, In attrs rules -> find Universal.target_tags attrs soup = None) ->
  Universal.sniper L soup rules = None.
Proof.
  induction rules as [|a rest IH]; intros H; simpl; [reflexivity|].
  rewrite (H a) by (left; reflexivity). apply IH.
  intros x Hx. apply H. right. assumption.
Qed.

Lemma universal_sniper_method L soup rules r :
  Universal.sniper L soup rules = Some r -> snd r = Universal.SNIPER.
Proof.
  induction rules as [|a rest IH]; simpl; [discriminate|].
  destruct (find Universal.target_tags a soup); [|exact IH].
  intros [= <-]. reflexivity.
Qed.

(** The two programs once the page is fetched and parsed. *)
Lemma simple_fetched L W url res soup :
  fetched W url res soup ->
  Simple.get_content_universal L W url =
  let soup := decompose_all Simple.unwanted soup in
  match Simple.sniper L soup Simple.targets with
  | Some text => text
  | None => Simple.sweep L soup
  end.
Proof.
  intros [Hg [Hs Hp]]. unfold Simple.get_content_universal.
  rewrite Hg. cbn -[Simple.sniper Simple.targets]. rewrite (raise_for_status_ok _ Hs).
  cbn -[Simple.sniper Simple.targets]. rewrite Hp. cbn -[Simple.sniper Simple.targets].
  destruct (Simple.sniper _ _ _); reflexivity.
Qed.

Lemma universal_fetched L W url res soup :
  fetched W url res soup ->
  Universal.get_content_universal L W url =
  match Universal.sniper L soup Universal.targets with
  | Some r => r
  | None =>
      match Universal.ai L W res with
      | inl e => ([], Universal.ERROR ++ exn_str e)
      | inr (Some r) => r
      | inr None => Universal.sweep L soup
      end
  end.
Proof.
  intros [Hg [Hs Hp]]. unfold Universal.get_content_universal.
  rewrite Hg. cbn -[Universal.sniper Universal.targets]. rewrite (raise_for_status_ok _ Hs).
  cbn -[Universal.sniper Universal.targets]. rewrite Hp. cbn -[Universal.sniper Universal.targets].
  destruct (Universal.sniper _ _ _); [reflexivity|]. cbn.
  destruct (Universal.ai L W res) as [e|[r|]]; reflexivity.
Qed.

Lemma universal_ai_method L W res r :
  Universal.ai L W res = inr (Some r) -> snd r = Universal.AI.
Proof.
  unfold Universal.ai. destruct (TRAFILATURA_AVAILABLE W); [|discriminate].
  destruct (trafilatura_extract W (content res)) as [e|[t|]]; cbn; try discriminate.
  destruct (truthy t); cbn; [|discriminate].
  intros [= <-]. reflexivity.
Qed.

(** Every return of the universal program is one of its four. *)
Lemma universal_returns L W url :
  let r := Universal.get_content_universal L W url in
  (exists e, r = ([], Universal.ERROR ++ exn_str e))
  \/ snd r = Universal.SNIPER \/ snd r = Universal.AI \/ snd r = Universal.SWEEP.
Proof.
  unfold Universal.get_content_universal.
  destruct (requests_get W url) as [e|res]; cbn -[Universal.sniper Universal.targets]; [left; eauto|].
  destruct (raise_for_status res) as [e|[]]; cbn -[Universal.sniper Universal.targets]; [left; eauto|].
  destruct (BeautifulSoup W (content res)) as [e|soup]; cbn -[Universal.sniper Universal.targets];
    [left; eauto|].
  destruct (Universal.sniper L soup Universal.targets) as [r|] eqn:Es; cbn.
  - right; left. eapply universal_sniper_method, Es.
  - destruct (Universal.ai L W res) as [e|[r|]] eqn:Ea; cbn.
    + left; eauto.
    + right; right; left. eapply universal_ai_method, Ea.
    + right; right; right. reflexivity.
Qed.

Lemma universal_ai_nothing L W res :
  ai_nothing W res -> Universal.ai L W res = inr None.
Proof.
  unfold Universal.ai. intros [H|[H|H]].
  - rewrite H. reflexivity.
  - destruct (TRAFILATURA_AVAILABLE W); [|reflexivity]. rewrite H. reflexivity.
  - destruct (TRAFILATURA_AVAILABLE W); [|reflexivity]. rewrite H. reflexivity.
Qed.

Lemma letter_or_space_allowed c : letter_or_space c -> allowed c = true.
Proof.
  unfold allowed, ascii_letter, thai_letter, digit.
  intros [H| ->]; [|reflexivity].
  unfold Universal.kept_letter in H.
  repeat rewrite Bool.orb_true_iff in *. tauto.
Qed.

Lemma has_target_decide tags rules soup :
  has_target tags rules soup <-> has_target_b tags rules soup = true.
Proof.
  unfold has_target, has_target_b. rewrite existsb_exists. split.
  - intros [n [attrs [Hn [Ha Hm]]]]. exists n. split; [assumption|].
    apply existsb_exists. exists attrs. auto.
  - intros [n [Hn H]]. apply existsb_exists in H as [attrs [Ha Hm]].
    exists n, attrs. auto.
Qed.

Lemma no_target_decide tags rules soup :
  has_target_b tags rules soup = false -> ~ has_target tags rules soup.
Proof. intros H Ht. apply has_target_decide in Ht. congruence. Qed.

(** ** Removing elements *)

Section NodeInduction.
Variable P : node -> Prop.
Hypothesis P_string : forall s, P (NavigableString s).
Hypothesis P_comment : forall s, P (Comment s).
Hypothesis P_tag : forall name attrs cs, Forall P cs -> P (Tag name attrs cs).

End NodeInduction.




(* ===================================================================== *)
(** * The content extractor                                               *)
(* ===================================================================== *)

(** C1, as the code has it.  Once the page is fetched and parsed: in the
    universal program, if some div, article or section element of the
    document matches one of the rules, the program returns with method
    "Sniper (Targeted)", through the first rule of the list, in its order,
    that finds an element, and with the text of the element that rule finds.
    In the simpler program the same holds with the tag main added, for the
    document left after the script, style, nav, footer, header, aside,
    button, form, iframe and noscript elements are removed: a target inside
    one of those is gone before the rules are tried. *)
Theorem sniper_first_match_wins (L : Lib) (W : Web) (url : str) (res : Response) (soup : node) :
  fetched W url res soup ->
  (has_target Universal.target_tags Universal.targets soup ->
   exists attrs n,
     first_match Universal.target_tags Universal.targets soup attrs n
     /\ Universal.get_content_universal L W url =
        (Universal.clean_text_final L
           (get_text newline (decompose_all Universal.junk_names n)),
         Universal.SNIPER))
  /\ (has_target Simple.target_tags Simple.targets (decompose_all Simple.unwanted soup) ->
      exists attrs n,
        first_match Simple.target_tags Simple.targets
                    (decompose_all Simple.unwanted soup) attrs n
        /\ Simple.get_content_universal L W url =
           Simple.clean_text_final L (get_text newline n)).
Proof.
  intros Hf. split; intros Ht.
  - destruct (first_match_exists Ht) as [attrs [n Hfm]].
    exists attrs, n. split; [assumption|].
    rewrite (universal_fetched L Hf), (universal_sniper_first L Hfm). reflexivity.
  - destruct (first_match_exists Ht) as [attrs [n Hfm]].
    exists attrs, n. split; [assumption|].
    rewrite (simple_fetched L Hf). cbv zeta.
    rewrite (simple_sniper_first L Hfm). reflexivity.
Qed.

Lemma sniper_first_match_wins_witness :
  (exists attrs n,
     first_match Universal.target_tags Universal.targets Samples.article_page attrs n
     /\ Universal.get_content_universal Samples.stdlib (Samples.page Samples.article_page)
          Samples.url =
        (Universal.clean_text_final Samples.stdlib
           (get_text newline (decompose_all Universal.junk_names n)),
         Universal.SNIPER))
  /\ (exists attrs n,
        first_match Simple.target_tags Simple.targets
                    (decompose_all Simple.unwanted Samples.article_page) attrs n
        /\ Simple.get_content_universal Samples.stdlib (Samples.page Samples.article_page)
             Samples.url =
           Simple.clean_text_final Samples.stdlib (get_text newline n)).
Proof.
  pose (res := {| status_code := 200; http_error := []; content := [] |}).
  assert (Hf : fetched (Samples.page Samples.article_page) Samples.url res
                       Samples.article_page).
  { repeat split. left. simpl. lia. }
  destruct (@sniper_first_match_wins Samples.stdlib _ _ _ _ Hf) as [HU HS].
  split.
  - apply HU.
    exists (Tag (lit "article") [Samples.class_ "article-body"]
                [NavigableString (lit "Text here")]),
           [(lit "class", lit "article-body")].
    repeat split; [left; reflexivity | do 2 right; left; reflexivity].
  - apply HS.
    exists (Tag (lit "article") [Samples.class_ "article-body"]
                [NavigableString (lit "Text here")]),
           [(lit "class", lit "article-body")].
    repeat split; [left; reflexivity | do 2 right; left; reflexivity].
Defined.

(** C1 fails as stated for the simpler program: on
    <nav><div class="article-body">Hello</div></nav> the div matches the
    rule class=article-body, every rule that finds an element finds that
    div, whose text is "Hello", and yet the program returns the empty
    string of its sweep. *)
Lemma target_in_nav_is_swept :
  has_target Simple.target_tags Simple.targets Samples.target_in_nav
  /\ (forall attrs n,
        In attrs Simple.targets ->
        find Simple.target_tags attrs Samples.target_in_nav = Some n ->
        Simple.clean_text_final Samples.stdlib (get_text newline n) = lit "Hello")
  /\ Simple.get_content_universal Samples.stdlib (Samples.page Samples.target_in_nav)
       Samples.url = [].
Proof.
  split; [|split].
  - exists (Tag (lit "div") [Samples.class_ "article-body"] [NavigableString (lit "Hello")]),
           [(lit "class", lit "article-body")].
    repeat split; [right; left; reflexivity | do 2 right; left; reflexivity].
  - assert (H : forallb
                  (fun attrs =>
                     match find Simple.target_tags attrs Samples.target_in_nav with
                     | Some n => str_eqb (Simple.clean_text_final Samples.stdlib
                                            (get_text newline n)) (lit "Hello")
                     | None => true
                     end) Simple.targets = true) by (vm_compute; reflexivity).
    intros attrs n Hin Hf. rewrite forallb_forall in H.
    specialize (H attrs Hin). rewrite Hf in H. apply str_eqb_eq. exact H.
  - vm_compute. reflexivity.
Qed.

(** C2, as the code has it.  For every URL, in the universal program: a
    method that indicates failure comes with the empty text, and a result
    with a non-empty text is tagged "Sniper (Targeted)", "AI (Trafilatura)"
    or "Fallback (Sweep)".  (The converse is not promised: those three can
    come with an empty text.) *)
Theorem failure_has_empty_text (L : Lib) (W : Web) (url : str) :
  let r := Universal.get_content_universal L W url in
  (indicates_failure (snd r) = true -> fst r = [])
  /\ (fst r <> [] ->
      snd r = Universal.SNIPER \/ snd r = Universal.AI \/ snd r = Universal.SWEEP).
Proof.
  intros r. pose proof (universal_returns L W url) as H.
  cbv zeta in H. fold r in H. destruct H as [[e He]|H].
  - rewrite He. simpl. split; [reflexivity|congruence].
  - split; [|intros _; exact H].
    intros Hi. exfalso.
    destruct H as [H|[H|H]]; rewrite H in Hi; vm_compute in Hi; discriminate.
Qed.

Lemma failure_has_empty_text_witness :
  indicates_failure
    (snd (Universal.get_content_universal Samples.stdlib Samples.offline Samples.url)) = true
  /\ fst (Universal.get_content_universal Samples.stdlib Samples.offline Samples.url) = [].
Proof.
  split; [reflexivity|].
  apply (failure_has_empty_text Samples.stdlib Samples.offline Samples.url).
  reflexivity.
Defined.

(** C2 fails as stated: on <div class="article-body"></div> the universal
    program returns the empty text with the method "Sniper (Targeted)",
    which does not indicate failure. *)
Lemma empty_text_without_failure :
  let r := Universal.get_content_universal Samples.stdlib
             (Samples.page Samples.empty_target) Samples.url in
  r = ([], Universal.SNIPER)
  /\ ~ (fst r = [] <-> indicates_failure (snd r) = true).
Proof.
  split; [reflexivity|].
  intros [H _]. specialize (H eq_refl). vm_compute in H. discriminate.
Qed.

(** C3.  Whenever the request raises, or the status is one that
    [raise_for_status] rejects, or the parser raises, both programs return:
    the universal one the empty text with the method "Error: " followed by
    the message of the exception, the simpler one the empty text. *)
Theorem fetch_errors_are_caught (L : Lib) (W : Web) (url : str) (e : exn) :
  fetch_raises W url e ->
  Universal.get_content_universal L W url = ([], Universal.ERROR ++ exn_str e)
  /\ indicates_failure (snd (Universal.get_content_universal L W url)) = true
  /\ Simple.get_content_universal L W url = [].
Proof.
  intros H.
  assert (HU : Universal.get_content_universal L W url = ([], Universal.ERROR ++ exn_str e)
               /\ Simple.get_content_universal L W url = []).
  { unfold Universal.get_content_universal, Simple.get_content_universal.
    destruct H as [Hg | res Hg Hs -> | res Hg Hs Hp]; rewrite Hg.
    - split; reflexivity.
    - cbn -[Universal.sniper Universal.targets Simple.sniper Simple.targets].
      rewrite (raise_for_status_raises _ Hs). split; reflexivity.
    - cbn -[Universal.sniper Universal.targets Simple.sniper Simple.targets].
      rewrite (raise_for_status_ok _ Hs).
      cbn -[Universal.sniper Universal.targets Simple.sniper Simple.targets].
      rewrite Hp. split; reflexivity. }
  destruct HU as [HU HS]. rewrite HU. repeat split. assumption.
Qed.

Lemma fetch_errors_are_caught_witness :
  fetch_raises Samples.offline Samples.url (Exception (lit "Read timed out."))
  /\ Universal.get_content_universal Samples.stdlib Samples.offline Samples.url =
     ([], lit "Error: Read timed out.")
  /\ Simple.get_content_universal Samples.stdlib Samples.offline Samples.url = [].
Proof.
  assert (H : fetch_raises Samples.offline Samples.url (Exception (lit "Read timed out.")))
    by (apply raises_get; reflexivity).
  split; [exact H|].
  destruct (fetch_errors_are_caught Samples.stdlib H) as [HU [_ HS]].
  split; [exact HU|exact HS].
Defined.

(** C4, as the code has it.  Once the page is fetched and parsed: in the
    simpler program (which has no second tier), when no rule finds a target
    in the document left after the unwanted elements are removed and the
    normalized text of that document has at most 100 characters, the
    program returns the empty text.  The universal program has no minimum
    length: when no rule finds a target and the second tier has nothing,
    it returns the normalized text of the swept document with the method
    "Fallback (Sweep)", whatever its length. *)
Theorem short_sweep_is_empty (L : Lib) (W : Web) (url : str) (res : Response) (soup : node) :
  fetched W url res soup ->
  (let swept := decompose_all Simple.unwanted soup in
   ~ has_target Simple.target_tags Simple.targets swept ->
   (List.length (Simple.clean_text_final L (get_text newline swept)) <= 100)%nat ->
   Simple.get_content_universal L W url = [])
  /\ (~ has_target Universal.target_tags Universal.targets soup ->
      ai_nothing W res ->
      Universal.get_content_universal L W url =
      (Universal.clean_text_final L
         (get_text newline (decompose_all Universal.unwanted soup)),
       Universal.SWEEP)).
Proof.
  intros Hf. split.
  - intros swept Hn Hlen.
    rewrite (simple_fetched L Hf). cbv zeta. fold swept.
    rewrite (simple_sniper_none L _ _ (no_target_no_find Hn)).
    unfold Simple.sweep.
    destruct (Nat.ltb_spec 100 (List.length (Simple.clean_text_final L (get_text newline swept))));
      [lia|reflexivity].
  - intros Hn Ha.
    rewrite (universal_fetched L Hf).
    rewrite (universal_sniper_none L _ _ (no_target_no_find Hn)).
    rewrite (universal_ai_nothing L Ha). reflexivity.
Qed.

Lemma short_sweep_is_empty_witness :
  Simple.get_content_universal Samples.stdlib (Samples.page Samples.short_page) Samples.url = []
  /\ Universal.get_content_universal Samples.stdlib (Samples.page Samples.short_page)
       Samples.url = (lit "hi", Universal.SWEEP).
Proof.
  pose (res := {| status_code := 200; http_error := []; content := [] |}).
  assert (Hf : fetched (Samples.page Samples.short_page) Samples.url res Samples.short_page).
  { repeat split. left. simpl. lia. }
  destruct (@short_sweep_is_empty Samples.stdlib _ _ _ _ Hf) as [HS HU].
  split.
  - apply HS.
    + apply no_target_decide. reflexivity.
    + vm_compute. lia.
  - apply HU.
    + apply no_target_decide. reflexivity.
    + left. reflexivity.
Defined.

(** C4 fails as stated for the universal program: on <p>hi</p>, with no
    target for the rules and no trafilatura, the normalized sweep text "hi"
    has 2 characters and is returned as it is. *)
Lemma short_sweep_is_returned :
  let W := Samples.page Samples.short_page in
  let res := {| status_code := 200; http_error := []; content := [] |} in
  fetched W Samples.url res Samples.short_page
  /\ ~ has_target Universal.target_tags Universal.targets Samples.short_page
  /\ ai_nothing W res
  /\ (List.length (Universal.clean_text_final Samples.stdlib
                     (get_text newline (decompose_all Universal.unwanted Samples.short_page)))
       <= 100)%nat
  /\ Universal.get_content_universal Samples.stdlib W Samples.url = (lit "hi", Universal.SWEEP)
  /\ fst (Universal.get_content_universal Samples.stdlib W Samples.url) <> [].
Proof.
  repeat split.
  - left. simpl. lia.
  - apply no_target_decide. reflexivity.
  - left. reflexivity.
  - vm_compute. lia.
  - vm_compute. discriminate.
Qed.

(** C8: the code at <div class="article-body">Hello<div class="ads">BUY</div>
    <script>x=1</script></div>.  The script goes, the advertisement stays:
    "div.ads" and "div.related" are given to [node(...)] as tag names, and no
    element has such a name. *)
Theorem sniper_keeps_ad_text :
  Universal.get_content_universal Samples.stdlib (Samples.page Samples.target_with_ad)
    Samples.url = (lit "Hello BUY", Universal.SNIPER)
  /\ find_all Universal.junk_names
       (Tag (lit "div") [Samples.class_ "article-body"]
          [Tag (lit "div") [Samples.class_ "ads"] [NavigableString (lit "BUY")]]) = [].
Proof. split; reflexivity. Qed.

(* ===================================================================== *)
(** * The normalizer                                                      *)
(* ===================================================================== *)

(** C5, as the code has it.  With an [html.unescape] that copies text
    without ampersand: the simpler [clean_text_final] applied twice equals
    it applied once on every string that holds no ampersand; the universal
    [clean_text_final] applied twice equals it applied once unless the text
    of the first pass is itself a junk line (under 40 characters, with a
    stoplist keyword), which the second pass drops, leaving the empty
    string. *)
Theorem clean_text_final_twice (L : Lib) (x : str) :
  unescape_plain L ->
  (~ In 38 x ->
   Simple.clean_text_final L (Simple.clean_text_final L x) = Simple.clean_text_final L x)
  /\ Universal.clean_text_final L (Universal.clean_text_final L x) =
     (if Universal.is_junk (Universal.clean_text_final L x) then []
      else Universal.clean_text_final L x).
Proof.
  intros HL. split.
  - intros Hx. destruct (simple_clean_keeps x HL Hx) as [Hz [Ha [Hs Ht]]].
    apply simple_clean_fixed; assumption.
  - destruct (universal_clean_shape L x) as [Hl [Hs Ht]].
    apply universal_clean_again; assumption.
Qed.

Lemma clean_text_final_twice_witness :
  Simple.clean_text_final Samples.stdlib
    (Simple.clean_text_final Samples.stdlib (lit " Hello   world ")) =
  Simple.clean_text_final Samples.stdlib (lit " Hello   world ")
  /\ Universal.clean_text_final Samples.stdlib
       (Universal.clean_text_final Samples.stdlib (lit " Hello   world ")) = lit "Hello world".
Proof.
  destruct (@clean_text_final_twice Samples.stdlib (lit " Hello   world ")
              sample_unescape_plain) as [HS HU].
  split.
  - apply HS. vm_compute. intuition discriminate.
  - rewrite HU. reflexivity.
Defined.

(** C5 fails as stated, in both programs.  The simpler one unescapes once
    per pass: "&amp;lt;" gives "&lt;", then "<".  The universal one filters
    junk lines once per pass: "Login", forty spaces, "x" is a line of 46
    characters and gives "Login x", a junk line, then the empty string. *)
Lemma clean_text_final_not_idempotent :
  Simple.clean_text_final Samples.stdlib (lit "&amp;lt;") = lit "&lt;"
  /\ Simple.clean_text_final Samples.stdlib (lit "&lt;") = lit "<"
  /\ Universal.clean_text_final Samples.stdlib Samples.padded_login = lit "Login x"
  /\ Universal.clean_text_final Samples.stdlib (lit "Login x") = []
  /\ ~ (forall x, Simple.clean_text_final Samples.stdlib
                    (Simple.clean_text_final Samples.stdlib x) =
                  Simple.clean_text_final Samples.stdlib x)
  /\ ~ (forall x, Universal.clean_text_final Samples.stdlib
                    (Universal.clean_text_final Samples.stdlib x) =
                  Universal.clean_text_final Samples.stdlib x).
Proof.
  repeat split; try reflexivity.
  - intros H. specialize (H (lit "&amp;lt;")). vm_compute in H. discriminate.
  - intros H. specialize (H Samples.padded_login). vm_compute in H. discriminate.
Qed.

(** C9, as the code has it.  The line loop of the universal
    [clean_text_final] keeps, in their order and stripped, exactly the lines
    that the stated rule keeps and that are not blank: a line goes when,
    stripped, it is empty, or is under 40 characters and holds a stoplist
    keyword. *)
Theorem line_filter_keeps (text : str) :
  Universal.line_loop (splitlines text) [] = filter truthy (spec_filter_lines text)
  /\ forall ln,
       In ln (Universal.line_loop (splitlines text) []) <->
       (exists raw, In raw (splitlines text) /\ ln = strip raw)
       /\ ln <> []
       /\ ~ ((List.length ln < 40)%nat
             /\ exists j, In j Universal.JUNK_KEYWORDS /\ contains j ln = true).
Proof.
  assert (E : Universal.line_loop (splitlines text) [] =
              filter truthy (spec_filter_lines text)).
  { rewrite line_loop_filter. unfold spec_filter_lines. simpl.
    induction (List.map strip (splitlines text)) as [|l r IH]; simpl; [reflexivity|].
    destruct (Universal.is_junk l); simpl; [exact IH|].
    destruct (truthy l); simpl; congruence. }
  split; [exact E|].
  intros ln. rewrite E. unfold spec_filter_lines.
  rewrite !filter_In, in_map_iff, Bool.negb_true_iff.
  assert (J : Universal.is_junk ln = false <->
              ~ ((List.length ln < 40)%nat
                 /\ exists j, In j Universal.JUNK_KEYWORDS /\ contains j ln = true)).
  { unfold Universal.is_junk. rewrite <- Bool.not_true_iff_false, Bool.andb_true_iff,
      Nat.ltb_lt, existsb_exists. reflexivity. }
  assert (T : truthy ln = true <-> ln <> []).
  { destruct ln; simpl; split; congruence. }
  rewrite J, T. split.
  - intros [[[raw [H1 H2]] H3] H4]. repeat split; eauto.
  - intros [[raw [H1 H2]] [H3 H4]]. repeat split; eauto.
Qed.

(** C9 fails as stated: in "a", blank line, "b" the blank line is neither
    under-40-with-keyword nor kept. *)
Lemma blank_line_is_dropped :
  let text := [97; 10; 10; 98] in
  splitlines text = [[97]; []; [98]]
  /\ Universal.is_junk [] = false
  /\ Universal.line_loop (splitlines text) [] = [[97]; [98]]
  /\ Universal.line_loop (splitlines text) [] <> spec_filter_lines text.
Proof. repeat split; try reflexivity. vm_compute. discriminate. Qed.

(** C10.  Whatever the input and whatever [html.unescape] returns, the
    text the universal [clean_text_final] returns is trimmed, holds no
    newline and no whitespace other than the space, never two whitespace
    characters in a row, and is made of ASCII letters, Thai letters of the
    two ranges, ASCII digits, periods and spaces only.  (The empty text is
    such a text.) *)
Theorem universal_clean_text_final_shape (L : Lib) (x : str) :
  let y := Universal.clean_text_final L x in
  trimmed y
  /\ ~ In 10 y
  /\ Forall (fun c => isspace c = true -> c = 32) y
  /\ no_double_space y
  /\ Forall (fun c => allowed c = true) y.
Proof.
  intros y. destruct (universal_clean_shape L x) as [Hl [Hs Ht]]. fold y in Hl, Hs, Ht.
  repeat split; try apply Ht.
  - intros H. rewrite Forall_forall in Hl.
    destruct (Hl _ H) as [Hk|Hk]; [|discriminate]. vm_compute in Hk. discriminate.
  - eapply Forall_impl; [|exact Hl]. intros c [Hk| ->] Hw; [|reflexivity].
    rewrite (letter_not_space _ Hk) in Hw. discriminate.
  - eapply spaced_no_double, Hs.
  - eapply Forall_impl; [|exact Hl]. apply letter_or_space_allowed.
Qed.

(* ===================================================================== *)
(** * The tokenizer adapter                                               *)
(* ===================================================================== *)

(** C6, as the code has it.  In the universal program, for every text
    with at least one character that is not whitespace: when deepcut raises
    on the first call and the recovery fails too (the reload raises, or the
    retry after it raises), [tokenize_text] returns [text.split()], which is
    not empty. *)
Theorem tokenize_falls_back_to_split
        (D : Universal.Deepcut) (text : str) (s0 s1 : Universal.session D) (e1 : exn) :
  Universal.DEEPCUT_AVAILABLE D = true ->
  has_word text ->
  Universal.tokenize D text s0 = (inl e1, s1) ->
  (forall u s2, Universal.reload D s1 = (inr u, s2) ->
                exists e2, fst (Universal.tokenize D text s2) = inl e2) ->
  fst (Universal.tokenize_text D text s0) = split text
  /\ fst (Universal.tokenize_text D text s0) <> [].
Proof.
  intros Ha Hw H1 H2.
  assert (E : fst (Universal.tokenize_text D text s0) = split text).
  { unfold Universal.tokenize_text. rewrite Ha.
    destruct text as [|c r]; [destruct Hw as [? [[] _]]|].
    simpl. rewrite H1.
    destruct (Universal.reload D s1) as [[e|u] s2] eqn:Hr; [reflexivity|].
    destruct (H2 u s2 eq_refl) as [e2 He2].
    destruct (Universal.tokenize D (c :: r) s2) as [[e|toks] s3]; [reflexivity|].
    simpl in He2. discriminate. }
  rewrite E. split; [reflexivity|]. apply split_nonempty. assumption.
Qed.

Lemma tokenize_falls_back_to_split_witness :
  fst (Universal.tokenize_text Samples.broken_deepcut (lit "Hello world") tt) =
  [lit "Hello"; lit "world"].
Proof.
  destruct (@tokenize_falls_back_to_split Samples.broken_deepcut (lit "Hello world") tt tt
              (Exception (lit "Session is closed"))) as [E _].
  - reflexivity.
  - exists 72. split; [left; reflexivity|reflexivity].
  - reflexivity.
  - intros u s2 _. exists (Exception (lit "Session is closed")). reflexivity.
  - rewrite E. reflexivity.
Defined.

(** C6 fails as stated: the text of one space is not empty, deepcut raises
    on the first call and on the retry, and [tokenize_text] returns the
    empty list. *)
Lemma tokenize_space_is_empty :
  let text := [32] in
  text <> []
  /\ (forall s, exists e, fst (Universal.tokenize Samples.broken_deepcut text s) = inl e)
  /\ fst (Universal.tokenize_text Samples.broken_deepcut text tt) = [].
Proof.
  repeat split.
  - discriminate.
  - intros s. eexists. reflexivity.
Qed.

(** C7.  [tokenize_text] of the empty string is the empty list: in the
    simpler program whichever of attacut and deepcut is installed and
    whatever they would do, in the universal program with or without
    deepcut, whatever its session, which is left as it was. *)
Theorem tokenize_empty_is_empty :
  (forall E : Simple.Engines, Simple.tokenize_text E [] = [])
  /\ (forall (D : Universal.Deepcut) (s : Universal.session D),
        Universal.tokenize_text D [] s = ([], s)).
Proof.
  split.
  - intros E. reflexivity.
  - intros D s. unfold Universal.tokenize_text. simpl.
    rewrite Bool.orb_true_r. reflexivity.
Qed.

(* ===================================================================== *)
(** * Further facts about the string primitives                           *)
(* ===================================================================== *)

Lemma linebreak_is_space c : is_linebreak c = true -> isspace c = true.
Proof. intros H. char_arith. Qed.

Lemma spaced_plain b s :
  spaced b s = true -> Forall (fun c => isspace c = true -> c = 32) s.
Proof.
  revert b; induction s as [|c r IH]; intros b H; [constructor|].
  simpl in H. destruct (isspace c) eqn:Hc.
  - rewrite !Bool.andb_true_iff in H. destruct H as [[H1 _] H3].
    apply N.eqb_eq in H1. constructor; [auto|eauto].
  - constructor; [congruence|eauto].
Qed.

Lemma spaced_head s : spaced true s = true -> forall c r, s = c :: r -> isspace c = false.
Proof.
  intros H c r ->. simpl in H. destruct (isspace c); [|reflexivity].
  rewrite Bool.andb_false_r in H. discriminate.
Qed.

Lemma all_space_lstrip s : all_space s -> lstrip s = [].
Proof. induction 1 as [|c r Hc Hr IH]; simpl; [reflexivity|]. rewrite Hc. exact IH. Qed.

Lemma all_space_strip s : all_space s -> strip s = [].
Proof. intros H. unfold strip. rewrite (all_space_lstrip H). reflexivity. Qed.

Lemma strip_keeps_word s c : In c s -> isspace c = false -> In c (strip s).
Proof.
  intros Hin Hc. destruct (strip_split s) as [a [b [E [Ha Hb]]]].
  rewrite E in Hin. apply in_app_or in Hin as [Hin|Hin].
  - unfold all_space in Ha. rewrite Forall_forall in Ha. rewrite (Ha _ Hin) in Hc. discriminate.
  - apply in_app_or in Hin as [Hin|Hin]; [assumption|].
    unfold all_space in Hb. rewrite Forall_forall in Hb. rewrite (Hb _ Hin) in Hc. discriminate.
Qed.


Lemma word_or_space s : has_word s \/ all_space s.
Proof.
  induction s as [|c r [[x [Hx Hw]]|IH]].
  - right. constructor.
  - left. exists x. split; [right; assumption|assumption].
  - destruct (isspace c) eqn:Hc.
    + right. constructor; assumption.
    + left. exists c. split; [left; reflexivity|assumption].
Qed.

Lemma word_not_space s : has_word s -> ~ all_space s.
Proof.
  intros [c [Hin Hc]] H. unfold all_space in H. rewrite Forall_forall in H.
  rewrite (H _ Hin) in Hc. discriminate.
Qed.

Lemma trimmed_has_word s : trimmed s -> s <> [] -> has_word s.
Proof.
  intros [Hh _] Hne. destruct s as [|c r]; [congruence|].
  exists c. split; [left; reflexivity|]. eapply Hh. reflexivity.
Qed.

(** ** The words of a text *)

(** No word of [s.split()] is empty or holds whitespace. *)
Lemma split_words s :
  Forall (fun w => w <> [] /\ Forall (fun c => isspace c = false) w) (split s).
Proof.
  induction s as [|c r IH]; simpl; [constructor|].
  destruct (isspace c) eqn:Hc; [exact IH|].
  destruct r as [|c' r']; [repeat constructor; [discriminate|assumption]|].
  destruct (isspace c') eqn:Hc'.
  - constructor; [|exact IH]. split; [discriminate|repeat constructor; assumption].
  - destruct (split (c' :: r')) as [|w ws].
    + repeat constructor; [discriminate|assumption].
    + inversion IH as [|? ? [Hw1 Hw2] Hws]; subst.
      constructor; [|assumption]. split; [discriminate|constructor; assumption].
Qed.

(** The words carry the characters of [s] that are not whitespace, in
    their order. *)
Lemma split_concat s :
  List.concat (split s) = filter (fun c => negb (isspace c)) s.
Proof.
  induction s as [|c r IH]; [reflexivity|].
  cbn [split filter]. destruct (isspace c) eqn:Hc; simpl; [exact IH|].
  destruct r as [|c' r']; [reflexivity|].
  destruct (isspace c') eqn:Hc'.
  - simpl. f_equal. exact IH.
  - destruct (split (c' :: r')) as [|w ws] eqn:Es.
    + simpl in *. rewrite <- IH. reflexivity.
    + simpl in *. f_equal. exact IH.
Qed.

Lemma lstrip_word c r : isspace c = false -> lstrip (c :: r) = c :: r.
Proof. intros H. simpl. rewrite H. reflexivity. Qed.

Lemma join_cons_word sep c w ws : join sep ((c :: w) :: ws) = c :: join sep (w :: ws).
Proof. destruct ws; reflexivity. Qed.

(** Joining the words of a text by single spaces gives the text back, once
    its whitespace is single spaces and it does not end with one. *)
Lemma split_cons c r :
  split (c :: r) =
  if isspace c then split r
  else match r with
       | [] => [[c]]
       | c' :: _ =>
           if isspace c' then [c] :: split r
           else match split r with
                | w :: ws => (c :: w) :: ws
                | [] => [[c]]
                end
       end.
Proof. reflexivity. Qed.

Lemma join_split b s :
  spaced b s = true ->
  (forall r c, s = r ++ [c] -> isspace c = false) ->
  join [32] (split s) = lstrip s.
Proof.
  revert b; induction s as [|c r IH]; intros b Hs Hl; [reflexivity|].
  assert (Hl' : forall r0 c0, r = r0 ++ [c0] -> isspace c0 = false).
  { intros r0 c0 ->. apply (Hl (c :: r0) c0). reflexivity. }
  simpl in Hs. rewrite split_cons. cbn [lstrip]. destruct (isspace c) eqn:Hc.
  - rewrite !Bool.andb_true_iff in Hs. destruct Hs as [_ Hs]. eapply IH; eassumption.
  - specialize (IH false Hs Hl').
    destruct r as [|c' r']; [reflexivity|].
    assert (Hw : has_word (c' :: r')).
    { destruct (exists_last (l := c' :: r')) as [r0 [c0 E]]; [discriminate|].
      exists c0. split; [rewrite E; apply in_or_app; right; left; reflexivity|].
      eapply Hl', E. }
    pose proof (split_nonempty Hw) as Hne.
    destruct (split (c' :: r')) as [|w ws] eqn:Es; [congruence|].
    destruct (isspace c') eqn:Hc'.
    + change (join [32] ([c] :: w :: ws)) with (c :: 32 :: join [32] (w :: ws)).
      rewrite IH. f_equal.
      simpl in Hs. rewrite Hc' in Hs. rewrite !Bool.andb_true_iff in Hs.
      destruct Hs as [[H1 _] H3]. apply N.eqb_eq in H1. subst c'.
      change (lstrip (32 :: r')) with (lstrip r').
      destruct r' as [|d r'']; [exfalso|].
      * specialize (Hl' [] 32 eq_refl). discriminate.
      * rewrite lstrip_word by (eapply spaced_head; [exact H3|reflexivity]). reflexivity.
    + rewrite join_cons_word. f_equal.
      rewrite lstrip_word in IH by assumption. exact IH.
Qed.

Lemma join_split_normal s :
  spaced false s = true -> trimmed s -> join [32] (split s) = s.
Proof.
  intros Hs [Hh Hl]. rewrite (join_split _ Hs Hl).
  destruct s as [|c r]; [reflexivity|]. apply lstrip_word. eapply Hh. reflexivity.
Qed.

(** ** The lines of a text *)

Lemma splitlines_from_Forall (P : char -> Prop) b cur s :
  Forall P cur -> Forall P s -> Forall (Forall P) (splitlines_from b cur s).
Proof.
  intros Hcur Hs. revert b cur Hcur.
  induction Hs as [|c r Hc Hr IH]; intros b cur Hcur; simpl.
  - destruct cur; [constructor|]. repeat constructor. apply Forall_rev. assumption.
  - destruct (b && char_eqb c 10)%bool; [auto|].
    destruct (is_linebreak c).
    + constructor; [apply Forall_rev; assumption|]. apply IH. constructor.
    + apply IH. constructor; assumption.
Qed.

Lemma splitlines_from_no_break b cur s :
  Forall (fun c => is_linebreak c = false) cur ->
  Forall (Forall (fun c => is_linebreak c = false)) (splitlines_from b cur s).
Proof.
  revert b cur. induction s as [|c r IH]; intros b cur Hcur; simpl.
  - destruct cur; [constructor|]. repeat constructor. apply Forall_rev. assumption.
  - destruct (b && char_eqb c 10)%bool; [auto|].
    destruct (is_linebreak c) eqn:Hc.
    + constructor; [apply Forall_rev; assumption|]. apply IH. constructor.
    + apply IH. constructor; assumption.
Qed.

Lemma splitlines_from_covers b cur s c :
  In c cur \/ (In c s /\ is_linebreak c = false) ->
  exists ln, In ln (splitlines_from b cur s) /\ In c ln.
Proof.
  revert b cur. induction s as [|x r IH]; intros b cur H; simpl.
  - destruct H as [H|[[] _]]. destruct cur as [|y cur']; [destruct H|].
    exists (rev (y :: cur')). split; [left; reflexivity|]. apply -> in_rev. assumption.
  - destruct (b && char_eqb x 10)%bool eqn:Hskip.
    + apply IH. destruct H as [H|[[->|H] Hc]]; auto.
      apply Bool.andb_true_iff in Hskip as [_ Hx]. apply N.eqb_eq in Hx. subst c.
      discriminate.
    + destruct (is_linebreak x) eqn:Hx.
      * destruct H as [H|[[->|H] Hc]].
        -- exists (rev cur). split; [left; reflexivity|]. apply -> in_rev. assumption.
        -- congruence.
        -- destruct (IH (char_eqb x 13) [] (or_intror (conj H Hc))) as [ln [H1 H2]].
           exists ln. split; [right; assumption|assumption].
      * apply IH. destruct H as [H|[[->|H] Hc]]; auto.
        -- left. right. assumption.
        -- left. left. reflexivity.
Qed.

(** ** The items of the input box *)

Lemma parse_items_In user_input item :
  In item (UniversalPage.parse_items user_input) <->
  item <> [] /\ exists ln, In ln (splitlines user_input) /\ item = strip ln.
Proof.
  unfold UniversalPage.parse_items. rewrite in_map_iff. split.
  - intros [ln [<- H]]. apply filter_In in H as [H1 H2]. split; [|eauto].
    destruct (strip ln); [discriminate|discriminate].
  - intros [Hne [ln [H1 ->]]]. exists ln. split; [reflexivity|].
    apply filter_In. split; [assumption|]. destruct (strip ln); [congruence|reflexivity].
Qed.

Lemma parse_items_line user_input item :
  In item (UniversalPage.parse_items user_input) ->
  Forall (fun c => is_linebreak c = false) item.
Proof.
  intros H. apply parse_items_In in H as [_ [ln [H ->]]].
  apply strip_Forall.
  pose proof (@splitlines_from_no_break false [] user_input (Forall_nil _)) as HF.
  rewrite Forall_forall in HF. apply HF. exact H.
Qed.

(* ===================================================================== *)
(** * Further properties of the normalizer                                *)
(* ===================================================================== *)

Lemma spaced_normalized s : spaced false s = true -> trimmed s -> normalized s.
Proof.
  intros Hs Ht. split; [assumption|]. split.
  - eapply spaced_plain, Hs.
  - eapply spaced_no_double, Hs.
Qed.

Lemma normalized_nil : normalized [].
Proof.
  apply spaced_normalized; [reflexivity|].
  split; intros; [discriminate|]. destruct r; discriminate.
Qed.

Lemma simple_clean_spaced L x :
  spaced false (Simple.clean_text_final L x) = true
  /\ trimmed (Simple.clean_text_final L x).
Proof.
  unfold Simple.clean_text_final. destruct (truthy x); simpl.
  - split; [apply strip_spaced, sub_ws_spaced|apply strip_trimmed].
  - split; [reflexivity|apply normalized_nil].
Qed.

(** The simpler [clean_text_final] returns a text whose whitespace is
    single spaces, none at either end, whatever [html.unescape] does. *)
Theorem simple_clean_text_final_normalized (L : Lib) (x : str) :
  normalized (Simple.clean_text_final L x).
Proof.
  destruct (simple_clean_spaced L x). apply spaced_normalized; assumption.
Qed.

Lemma join_Forall (P : char -> Prop) sep parts :
  Forall P sep -> Forall (Forall P) parts -> Forall P (join sep parts).
Proof.
  intros Hsep H. induction H as [|p rest Hp Hrest IH]; simpl; [constructor|].
  destruct rest as [|q rest']; [assumption|].
  apply Forall_app. split; [assumption|]. apply Forall_app. split; assumption.
Qed.

Lemma all_space_sub_ws b s : all_space s -> all_space (sub_ws_from b s).
Proof. intros H. apply sub_ws_Forall; [reflexivity|assumption]. Qed.

(** A text without a letter, a digit or a period of the kept ranges, and
    without ampersand, is normalized to the empty string by the universal
    [clean_text_final]. *)
Theorem universal_clean_without_letters (L : Lib) (x : str) :
  unescape_plain L ->
  Forall (fun c => Universal.kept_letter c = false /\ c <> 38) x ->
  Universal.clean_text_final L x = [].
Proof.
  intros HL Hx. unfold Universal.clean_text_final.
  destruct (truthy x); simpl; [|reflexivity].
  set (P := fun c : char => Universal.kept_letter c = false /\ c <> 38) in *.
  assert (Hj : Forall P (join newline (Universal.line_loop (splitlines x) []))).
  { apply join_Forall; [unfold newline; repeat constructor; discriminate|].
    rewrite line_loop_filter. simpl.
    apply Forall_forall. intros ln Hln. apply filter_In in Hln as [Hln _].
    apply in_map_iff in Hln as [raw [<- Hraw]]. apply strip_Forall.
    pose proof (@splitlines_from_Forall P false [] x (Forall_nil _) Hx) as HF.
    rewrite Forall_forall in HF. apply HF. exact Hraw. }
  rewrite HL.
  2:{ intros H. rewrite Forall_forall in Hj. destruct (Hj _ H) as [_ Hne]. congruence. }
  apply all_space_strip, all_space_sub_ws.
  unfold sub_class_char, sub_class_empty, all_space.
  apply Forall_forall. intros c Hc. apply in_map_iff in Hc as [d [<- Hd]].
  apply filter_In in Hd as [Hd _].
  rewrite Forall_forall in Hj. destruct (Hj _ Hd) as [Hk _].
  unfold Universal.RE_KEEP, Universal.kept. rewrite Hk. simpl.
  destruct (isspace d) eqn:Hs; [exact Hs|reflexivity].
Qed.

Lemma universal_clean_without_letters_witness :
  Universal.clean_text_final Samples.stdlib (lit "*** --- !!!") = [].
Proof.
  apply (@universal_clean_without_letters Samples.stdlib (lit "*** --- !!!")
           sample_unescape_plain).
  repeat constructor; discriminate.
Defined.

(* ===================================================================== *)
(** * Further properties of the tokenizer adapter                         *)
(* ===================================================================== *)

Lemma simple_fallback_split E text :
  simple_falls_back E text -> Simple.tokenize_text E text = split text.
Proof.
  unfold Simple.tokenize_text.
  destruct text as [|c r]; [reflexivity|]. simpl truthy. cbv iota. simpl negb. cbv iota.
  intros [[Ha [e He]]|[[Ha [Hd [e He]]]|[Ha Hd]]]; rewrite Ha.
  - rewrite He. reflexivity.
  - rewrite Hd, He. reflexivity.
  - rewrite Hd. reflexivity.
Qed.

Lemma universal_fallback_split D text s :
  Universal.DEEPCUT_AVAILABLE D = false ->
  Universal.tokenize_text D text s = (split text, s).
Proof.
  intros H. unfold Universal.tokenize_text. rewrite H. simpl.
  destruct text; reflexivity.
Qed.

(** In the simpler program, when [tokenize_text] ends in the whitespace
    split (no segmenter installed, or the one called raises), the tokens of
    a text that [clean_text_final] returned, joined by single spaces, are
    that text. *)
Theorem simple_fallback_round_trip (L : Lib) (E : Simple.Engines) (x : str) :
  simple_falls_back E (Simple.clean_text_final L x) ->
  join [32] (Simple.tokenize_text E (Simple.clean_text_final L x)) =
  Simple.clean_text_final L x.
Proof.
  intros H. rewrite simple_fallback_split by assumption.
  destruct (simple_clean_spaced L x). apply join_split_normal; assumption.
Qed.

Lemma simple_fallback_round_trip_witness :
  join [32]
    (Simple.tokenize_text
       {| Simple.ATTACUT_AVAILABLE := true;
          Simple.attacut_tokenize := fun _ => inl (Exception (lit "no model"));
          Simple.DEEPCUT_AVAILABLE := true;
          Simple.deepcut_tokenize := fun t => inr [t] |}
       (Simple.clean_text_final Samples.stdlib (lit "  Hello   big world "))) =
  lit "Hello big world".
Proof.
  rewrite simple_fallback_round_trip; [reflexivity|].
  left. split; [reflexivity|]. eexists. reflexivity.
Defined.

(** In the universal program without deepcut, the tokens of a text that
    [clean_text_final] returned, joined by single spaces, are that text,
    and the session is left as it was. *)
Theorem universal_fallback_round_trip
        (L : Lib) (D : Universal.Deepcut) (s : Universal.session D) (x : str) :
  Universal.DEEPCUT_AVAILABLE D = false ->
  join [32] (fst (Universal.tokenize_text D (Universal.clean_text_final L x) s)) =
  Universal.clean_text_final L x
  /\ snd (Universal.tokenize_text D (Universal.clean_text_final L x) s) = s.
Proof.
  intros H. rewrite universal_fallback_split by assumption. simpl. split; [|reflexivity].
  destruct (universal_clean_shape L x) as [_ [Hs Ht]].
  apply join_split_normal; assumption.
Qed.

Lemma universal_fallback_round_trip_witness :
  let D := {| Universal.session := unit;
              Universal.DEEPCUT_AVAILABLE := false;
              Universal.tokenize := fun _ s => (inr [], s);
              Universal.reload := fun s => (inr tt, s) |} in
  join [32] (fst (Universal.tokenize_text D
                    (Universal.clean_text_final Samples.stdlib (lit " a,b  c ")) tt)) =
  lit "a b c".
Proof.
  intros D.
  destruct (@universal_fallback_round_trip Samples.stdlib D tt (lit " a,b  c ") eq_refl)
    as [H _].
  rewrite H. reflexivity.
Defined.

(** When the whitespace split is what [tokenize_text] returns (here: the
    universal program without deepcut), no token is empty, no token holds
    whitespace, and the tokens put end to end are the text without its
    whitespace. *)
Theorem fallback_tokens_are_words
        (D : Universal.Deepcut) (s : Universal.session D) (text : str) :
  Universal.DEEPCUT_AVAILABLE D = false ->
  let tokens := fst (Universal.tokenize_text D text s) in
  Forall (fun w => w <> [] /\ Forall (fun c => isspace c = false) w) tokens
  /\ List.concat tokens = filter (fun c => negb (isspace c)) text.
Proof.
  intros H tokens. unfold tokens. rewrite universal_fallback_split by assumption. simpl.
  split; [apply split_words|apply split_concat].
Qed.

Lemma fallback_tokens_are_words_witness :
  let D := {| Universal.session := unit;
              Universal.DEEPCUT_AVAILABLE := false;
              Universal.tokenize := fun _ s => (inr [], s);
              Universal.reload := fun s => (inr tt, s) |} in
  List.concat (fst (Universal.tokenize_text D (lit " ab  c ") tt)) = lit "abc".
Proof.
  intros D.
  destruct (@fallback_tokens_are_words D tt (lit " ab  c ") eq_refl) as [_ H].
  rewrite H. reflexivity.
Defined.

(** In the simpler program with attacut installed, deepcut plays no part:
    two configurations that agree on attacut give the same tokens, which
    are attacut's, or the whitespace split when attacut raises. *)
Theorem attacut_alone_decides (E E' : Simple.Engines) (text : str) :
  Simple.ATTACUT_AVAILABLE E = true ->
  Simple.ATTACUT_AVAILABLE E' = true ->
  Simple.attacut_tokenize E text = Simple.attacut_tokenize E' text ->
  Simple.tokenize_text E text = Simple.tokenize_text E' text
  /\ (text <> [] ->
      Simple.tokenize_text E text =
      match Simple.attacut_tokenize E text with
      | inr tokens => tokens
      | inl _ => split text
      end).
Proof.
  intros Ha Ha' He. unfold Simple.tokenize_text. rewrite Ha, Ha', He.
  destruct text as [|c r]; simpl; [split; [reflexivity|congruence]|].
  split; [reflexivity|]. intros _.
  destruct (Simple.attacut_tokenize E' (c :: r)); reflexivity.
Qed.

Lemma attacut_alone_decides_witness :
  let E := {| Simple.ATTACUT_AVAILABLE := true;
              Simple.attacut_tokenize := fun _ => inl (Exception (lit "no model"));
              Simple.DEEPCUT_AVAILABLE := true;
              Simple.deepcut_tokenize := fun t => inr [t] |} in
  Simple.tokenize_text E (lit "a b") = [lit "a"; lit "b"].
Proof.
  intros E.
  destruct (@attacut_alone_decides E E (lit "a b") eq_refl eq_refl eq_refl) as [_ H].
  rewrite H; [reflexivity|discriminate].
Defined.

(* ===================================================================== *)
(** * Further properties of the content extractor                         *)
(* ===================================================================== *)

Lemma simple_sniper_clean L soup rules t :
  Simple.sniper L soup rules = Some t -> exists z, t = Simple.clean_text_final L z.
Proof.
  induction rules as [|a rest IH]; simpl; [discriminate|].
  destruct (find Simple.target_tags a soup); [|exact IH].
  intros [= <-]. eexists. reflexivity.
Qed.

Lemma universal_sniper_clean L soup rules r :
  Universal.sniper L soup rules = Some r -> exists z, fst r = Universal.clean_text_final L z.
Proof.
  induction rules as [|a rest IH]; simpl; [discriminate|].
  destruct (find Universal.target_tags a soup); [|exact IH].
  intros [= <-]. eexists. reflexivity.
Qed.

Lemma universal_ai_clean L W res r :
  Universal.ai L W res = inr (Some r) -> exists z, fst r = Universal.clean_text_final L z.
Proof.
  unfold Universal.ai. destruct (TRAFILATURA_AVAILABLE W); [|discriminate].
  destruct (trafilatura_extract W (content res)) as [e|[t|]]; cbn; try discriminate.
  destruct (truthy t); cbn; [|discriminate].
  intros [= <-]. eexists. reflexivity.
Qed.



Lemma simple_sniper_none_inv L soup rules :
  Simple.sniper L soup rules = None ->
  ~ has_target Simple.target_tags rules soup.
Proof.
  intros H Ht. destruct (first_match_exists Ht) as [attrs [n Hfm]].
  rewrite (simple_sniper_first L Hfm) in H. discriminate.
Qed.

(** Where the request stands: it raised, or it returned and then the
    status or the parser raised, or the page is there. *)
Lemma fetch_cases W url :
  (exists e, fetch_raises W url e) \/ (exists res soup, fetched W url res soup).
Proof.
  destruct (requests_get W url) as [e|res] eqn:Hg.
  - left. exists e. apply raises_get. assumption.
  - destruct (Z_lt_dec (status_code res) 400) as [Hlo|Hlo];
      [|destruct (Z_le_dec 600 (status_code res)) as [Hhi|Hhi]].
    3:{ left. eexists. eapply raises_status; [eassumption|lia|reflexivity]. }
    all: destruct (BeautifulSoup W (content res)) as [e|soup] eqn:Hp;
      [left; exists e; eapply raises_parse; eauto
      |right; exists res, soup; repeat split; auto].
Qed.

Lemma fetch_raises_results L W url e :
  fetch_raises W url e ->
  Universal.get_content_universal L W url = ([], Universal.ERROR ++ exn_str e)
  /\ Simple.get_content_universal L W url = [].
Proof.
  intros H. unfold Universal.get_content_universal, Simple.get_content_universal.
  destruct H as [Hg | res Hg Hs -> | res Hg Hs Hp]; rewrite Hg.
  - split; reflexivity.
  - cbn -[Universal.sniper Universal.targets Simple.sniper Simple.targets].
    rewrite (raise_for_status_raises _ Hs). split; reflexivity.
  - cbn -[Universal.sniper Universal.targets Simple.sniper Simple.targets].
    rewrite (raise_for_status_ok _ Hs).
    cbn -[Universal.sniper Universal.targets Simple.sniper Simple.targets].
    rewrite Hp. split; reflexivity.
Qed.

Lemma simple_content_cases L W url :
  Simple.get_content_universal L W url = []
  \/ exists z, Simple.get_content_universal L W url = Simple.clean_text_final L z.
Proof.
  destruct (fetch_cases W url) as [[e He]|[res [soup Hf]]].
  - left. apply (fetch_raises_results L He).
  - rewrite (simple_fetched L Hf). cbv zeta.
    destruct (Simple.sniper L _ Simple.targets) as [t|] eqn:Es.
    + right. eapply simple_sniper_clean, Es.
    + unfold Simple.sweep. destruct (Nat.ltb _ _); [right; eexists; reflexivity|left; reflexivity].
Qed.

Lemma universal_content_cases L W url :
  fst (Universal.get_content_universal L W url) = []
  \/ exists z, fst (Universal.get_content_universal L W url) = Universal.clean_text_final L z.
Proof.
  destruct (fetch_cases W url) as [[e He]|[res [soup Hf]]].
  - left. rewrite (proj1 (fetch_raises_results L He)). reflexivity.
  - rewrite (universal_fetched L Hf).
    destruct (Universal.sniper L soup Universal.targets) as [r|] eqn:Es.
    + right. eapply universal_sniper_clean, Es.
    + destruct (Universal.ai L W res) as [e|[r|]] eqn:Ea.
      * left. reflexivity.
      * right. eapply universal_ai_clean, Ea.
      * right. eexists. reflexivity.
Qed.

(** Whatever the network, the page and the path taken, the text the
    simpler [get_content_universal] returns has single spaces for
    whitespace and none at either end. *)
Theorem simple_content_normalized (L : Lib) (W : Web) (url : str) :
  normalized (Simple.get_content_universal L W url).
Proof.
  destruct (simple_content_cases L W url) as [H|[z H]]; rewrite H.
  - apply normalized_nil.
  - destruct (simple_clean_spaced L z). apply spaced_normalized; assumption.
Qed.

(** Whatever the network, the page, trafilatura and the path taken, the
    text the universal [get_content_universal] returns has single spaces
    for whitespace, none at either end, and is made of the kept letters,
    digits, periods and spaces. *)
Theorem universal_content_normalized (L : Lib) (W : Web) (url : str) :
  normalized (fst (Universal.get_content_universal L W url))
  /\ Forall (fun c => allowed c = true) (fst (Universal.get_content_universal L W url)).
Proof.
  destruct (universal_content_cases L W url) as [H|[z H]]; rewrite H.
  - split; [apply normalized_nil|constructor].
  - destruct (universal_clean_shape L z) as [Hl [Hs Ht]].
    split; [apply spaced_normalized; assumption|].
    eapply Forall_impl; [|exact Hl]. apply letter_or_space_allowed.
Qed.

(** In the universal program, once the page is fetched and parsed and no
    rule finds a target: when trafilatura is installed and returns a text
    that is not empty, the result is that text normalized with the method
    "AI (Trafilatura)"; the document tree is not read. *)
Theorem ai_tier_result (L : Lib) (W : Web) (url : str) (res : Response) (soup : node)
        (text : str) :
  fetched W url res soup ->
  ~ has_target Universal.target_tags Universal.targets soup ->
  TRAFILATURA_AVAILABLE W = true ->
  trafilatura_extract W (content res) = inr (Some text) ->
  text <> [] ->
  Universal.get_content_universal L W url =
  (Universal.clean_text_final L text, Universal.AI).
Proof.
  intros Hf Hn Ha He Ht.
  rewrite (universal_fetched L Hf).
  rewrite (universal_sniper_none L _ _ (no_target_no_find Hn)).
  unfold Universal.ai. rewrite Ha, He. cbn.
  destruct text; [congruence|reflexivity].
Qed.

Lemma ai_tier_result_witness :
  let W := {| requests_get := fun _ => inr {| status_code := 200; http_error := [];
                                             content := [] |};
              BeautifulSoup := fun _ => inr Samples.short_page;
              TRAFILATURA_AVAILABLE := true;
              trafilatura_extract := fun _ => inr (Some (lit "Main  text.")) |} in
  Universal.get_content_universal Samples.stdlib W Samples.url =
  (lit "Main text.", Universal.AI).
Proof.
  intros W.
  rewrite (@ai_tier_result Samples.stdlib W Samples.url
             {| status_code := 200; http_error := []; content := [] |}
             Samples.short_page (lit "Main  text.")).
  - reflexivity.
  - repeat split. left. simpl. lia.
  - apply no_target_decide. reflexivity.
  - reflexivity.
  - reflexivity.
  - discriminate.
Defined.




(** In the simpler program, once the page is fetched and parsed and no
    rule finds a target in the swept document, the text returned is the
    normalized text of that document when it has more than 100 characters
    and the empty text otherwise: a text of 1 to 100 characters is never
    returned on this path. *)
Theorem simple_sweep_result (L : Lib) (W : Web) (url : str) (res : Response) (soup : node) :
  fetched W url res soup ->
  let swept := decompose_all Simple.unwanted soup in
  let cleaned := Simple.clean_text_final L (get_text newline swept) in
  ~ has_target Simple.target_tags Simple.targets swept ->
  Simple.get_content_universal L W url =
    (if Nat.ltb 100 (List.length cleaned) then cleaned else [])
  /\ (Simple.get_content_universal L W url = []
      \/ (100 < List.length (Simple.get_content_universal L W url))%nat).
Proof.
  intros Hf swept cleaned Hn.
  rewrite (simple_fetched L Hf). cbv zeta. fold swept.
  rewrite (simple_sniper_none L _ _ (no_target_no_find Hn)).
  unfold Simple.sweep. fold cleaned.
  destruct (Nat.ltb_spec 100 (List.length cleaned)); split; auto.
Qed.

Lemma simple_sweep_result_witness :
  let text := repeat 97 101 in
  Simple.get_content_universal Samples.stdlib
    (Samples.page (Samples.soup_of [Tag (lit "p") [] [NavigableString text]]))
    Samples.url = text.
Proof.
  intros text.
  destruct (@simple_sweep_result Samples.stdlib
              (Samples.page (Samples.soup_of [Tag (lit "p") [] [NavigableString text]]))
              Samples.url
              {| status_code := 200; http_error := []; content := [] |}
              (Samples.soup_of [Tag (lit "p") [] [NavigableString text]])) as [H _].
  - repeat split. left. simpl. lia.
  - apply no_target_decide. reflexivity.
  - rewrite H. reflexivity.
Defined.

(* ===================================================================== *)
(** * Properties of the pages                                             *)
(* ===================================================================== *)

(** ** The input box of the universal page *)

(** The list of items is empty, and the page asks for input instead of
    analysing, exactly when the input box holds nothing but whitespace. *)
Theorem no_items_iff_blank (user_input : str) :
  UniversalPage.parse_items user_input = [] <-> all_space user_input.
Proof.
  split.
  - intros H. destruct (word_or_space user_input) as [[c [Hin Hc]]|Hs]; [exfalso|assumption].
    assert (Hb : is_linebreak c = false).
    { destruct (is_linebreak c) eqn:E; [|reflexivity].
      apply linebreak_is_space in E. congruence. }
    destruct (@splitlines_from_covers false [] user_input c (or_intror (conj Hin Hb)))
      as [ln [Hln Hcl]].
    assert (Hi : In (strip ln) (UniversalPage.parse_items user_input)).
    { apply parse_items_In. split; [|eauto].
      intros E. assert (Hx : In c (strip ln)) by (apply strip_keeps_word; assumption).
      rewrite E in Hx. destruct Hx. }
    rewrite H in Hi. destruct Hi.
  - intros Hs. destruct (UniversalPage.parse_items user_input) as [|item rest] eqn:E;
      [reflexivity|exfalso].
    assert (Hi : In item (UniversalPage.parse_items user_input)) by (rewrite E; left; reflexivity).
    apply parse_items_In in Hi as [Hne [ln [Hln ->]]]. apply Hne.
    apply all_space_strip.
    pose proof (@splitlines_from_Forall (fun c => isspace c = true) false [] user_input
                  (Forall_nil _) Hs) as HF.
    rewrite Forall_forall in HF. apply HF. exact Hln.
Qed.

Lemma parse_items_one_line user_input item :
  In item (UniversalPage.parse_items user_input) ->
  item <> [] /\ trimmed item /\ splitlines item = [item].
Proof.
  intros H. pose proof (parse_items_line _ _ H) as Hl.
  apply parse_items_In in H as [Hne [ln [Hln ->]]].
  split; [assumption|]. split; [apply strip_trimmed|].
  unfold splitlines. rewrite splitlines_one; auto.
Qed.

(** Every item is one line of the input, stripped: it is not empty, has no
    whitespace at either end, holds no line boundary, and holds a character
    that is not whitespace. *)
Theorem items_are_stripped_lines (user_input item : str) :
  In item (UniversalPage.parse_items user_input) ->
  item <> [] /\ trimmed item /\ has_word item
  /\ Forall (fun c => is_linebreak c = false) item
  /\ splitlines item = [item]
  /\ exists ln, In ln (splitlines user_input) /\ item = strip ln.
Proof.
  intros H. pose proof (parse_items_line _ _ H) as Hl.
  destruct (parse_items_one_line _ _ H) as [Hne [Ht Hs]].
  apply parse_items_In in H as [_ [ln [Hln E]]].
  repeat split; try apply Ht; auto.
  - apply trimmed_has_word; assumption.
  - eauto.
Qed.

Lemma items_are_stripped_lines_witness :
  splitlines (lit "https://a.example/x") = [lit "https://a.example/x"].
Proof.
  apply (@items_are_stripped_lines
           [32; 10; 32; 104; 116; 116; 112; 115; 58; 47; 47; 97; 46; 101; 120; 97; 109; 112;
            108; 101; 47; 120; 32; 13; 10]
           (lit "https://a.example/x")).
  vm_compute. left. reflexivity.
Defined.

(** ** The batch of URLs *)

Lemma url_loop_rows L W D completed results s :
  exists rows s',
    UniversalPage.url_loop L W D completed results s = (results ++ rows, s')
    /\ List.map UniversalPage.Source rows =
       filter (fun url => truthy (fst (Universal.get_content_universal L W url))) completed
    /\ Forall (url_row_ok L W D) rows.
Proof.
  revert results s. induction completed as [|url rest IH]; intros results s; simpl.
  - exists [], s. rewrite app_nil_r. repeat split. constructor.
  - destruct (Universal.get_content_universal L W url) as [content method] eqn:Eg. simpl.
    destruct (truthy content) eqn:Et.
    + destruct (Universal.tokenize_text D content s) as [tokens s1] eqn:Ek.
      destruct (IH (results ++ [{| UniversalPage.Source := url; UniversalPage.Raw := content;
                                   UniversalPage.Tokens := tokens;
                                   UniversalPage.Method := method |}]) s1)
        as [rows [s' [H1 [H2 H3]]]].
      eexists (_ :: rows), s'. split; [rewrite H1, <- app_assoc; reflexivity|].
      split; [simpl; rewrite H2; reflexivity|].
      constructor; [|assumption].
      unfold url_row_ok. simpl. rewrite Eg. split; [reflexivity|].
      split; [destruct content; discriminate|].
      exists s. rewrite Ek. reflexivity.
    + apply IH.
Qed.

(** Whatever the order in which the fetches complete: every row of the
    batch comes from an item of the input, holds what
    [get_content_universal] returns for it, with a text that is not empty
    and a method that is "Sniper (Targeted)", "AI (Trafilatura)" or
    "Fallback (Sweep)", never an error; every item whose text is not empty
    has a row; and there are no more rows than items. *)
Theorem url_batch_rows (L : Lib) (W : Web) (D : Universal.Deepcut)
        (items completed : list str) (s : Universal.session D) :
  Permutation items completed ->
  let rows := fst (UniversalPage.url_loop L W D completed [] s) in
  Forall (fun row =>
            In (UniversalPage.Source row) items
            /\ url_row_ok L W D row
            /\ (UniversalPage.Method row = Universal.SNIPER
                \/ UniversalPage.Method row = Universal.AI
                \/ UniversalPage.Method row = Universal.SWEEP)) rows
  /\ (forall url, In url items ->
                  fst (Universal.get_content_universal L W url) <> [] ->
                  exists row, In row rows /\ UniversalPage.Source row = url)
  /\ (List.length rows <= List.length items)%nat.
Proof.
  intros Hp rows.
  destruct (url_loop_rows L W D completed [] s) as [rs [s' [H1 [H2 H3]]]].
  unfold rows. rewrite H1. simpl. clear rows H1.
  split; [|split].
  - apply Forall_forall. intros row Hrow.
    rewrite Forall_forall in H3. pose proof (H3 _ Hrow) as Hok.
    split; [|split; [exact Hok|]].
    + apply (Permutation_in _ (Permutation_sym Hp)).
      assert (Hs : In (UniversalPage.Source row) (List.map UniversalPage.Source rs))
        by (apply in_map; assumption).
      rewrite H2 in Hs. apply filter_In in Hs. tauto.
    + destruct Hok as [Hg [Hne _]].
      pose proof (universal_returns L W (UniversalPage.Source row)) as Hr.
      cbv zeta in Hr. rewrite <- Hg in Hr. simpl in Hr.
      destruct Hr as [[e He]|Hr]; [|exact Hr].
      injection He as He _. congruence.
  - intros url Hin Hne.
    assert (Hs : In url (List.map UniversalPage.Source rs)).
    { rewrite H2. apply filter_In. split; [eapply Permutation_in; eassumption|].
      destruct (fst (Universal.get_content_universal L W url)); [congruence|reflexivity]. }
    apply in_map_iff in Hs as [row [Hsrc Hrow]]. exists row. auto.
  - rewrite (Permutation_length Hp), <- (length_map UniversalPage.Source rs), H2.
    apply filter_length_le.
Qed.

Lemma url_batch_rows_witness :
  let items := [Samples.url; lit "https://down.example/"] in
  let completed := [lit "https://down.example/"; Samples.url] in
  List.map UniversalPage.Source
    (fst (UniversalPage.url_loop Samples.stdlib one_good_url no_deepcut completed [] tt)) =
  [Samples.url]
  /\ (List.length
        (fst (UniversalPage.url_loop Samples.stdlib one_good_url no_deepcut completed [] tt))
      <= 2)%nat.
Proof.
  intros items completed. split; [reflexivity|].
  apply (@url_batch_rows Samples.stdlib one_good_url no_deepcut items completed tt).
  apply perm_swap.
Defined.

(** ** The batch of texts *)

Lemma text_loop_rows L D todo idx results s :
  exists rows s',
    UniversalPage.text_loop L D idx todo results s = (results ++ rows, s')
    /\ Forall (fun row => exists i text,
                  nth_error todo i = Some text /\ text_row_ok L D (idx + i) text row) rows
    /\ (forall i text, nth_error todo i = Some text ->
                       Universal.clean_text_final L text <> [] ->
                       exists row, In row rows /\ text_row_ok L D (idx + i) text row).
Proof.
  revert idx results s. induction todo as [|text rest IH]; intros idx results s; simpl.
  - exists [], s. rewrite app_nil_r. repeat split; [constructor|].
    intros [|i] t H; discriminate.
  - destruct (truthy (Universal.clean_text_final L text)) eqn:Et.
    + destruct (Universal.tokenize_text D (Universal.clean_text_final L text) s)
        as [tokens s1] eqn:Ek.
      set (row0 := {| UniversalPage.Source := UniversalPage.text_label idx;
                      UniversalPage.Raw := Universal.clean_text_final L text;
                      UniversalPage.Tokens := tokens;
                      UniversalPage.Method := UniversalPage.DIRECT_TEXT |}).
      assert (Hrow0 : text_row_ok L D (idx + 0) text row0).
      { unfold text_row_ok. simpl. rewrite Nat.add_0_r. repeat split.
        - destruct (Universal.clean_text_final L text); discriminate.
        - exists s. rewrite Ek. reflexivity. }
      destruct (IH (S idx) (results ++ [row0]) s1) as [rows [s' [H1 [H2 H3]]]].
      exists (row0 :: rows), s'. split; [rewrite H1, <- app_assoc; reflexivity|]. split.
      * constructor; [exists 0%nat, text; auto|].
        eapply Forall_impl; [|exact H2]. intros row [i [t [Hi Hr]]].
        exists (S i), t. rewrite Nat.add_succ_r. auto.
      * intros [|i] t Hi Hne.
        -- injection Hi as Hi. subst t. exists row0. split; [left; reflexivity|assumption].
        -- destruct (H3 i t Hi Hne) as [row [Hin Hr]].
           exists row. rewrite Nat.add_succ_r. split; [right; assumption|assumption].
    + destruct (IH (S idx) results s) as [rows [s' [H1 [H2 H3]]]].
      exists rows, s'. split; [assumption|]. split.
      * eapply Forall_impl; [|exact H2]. intros row [i [t [Hi Hr]]].
        exists (S i), t. rewrite Nat.add_succ_r. auto.
      * intros [|i] t Hi Hne.
        -- injection Hi as Hi. subst t.
           destruct (Universal.clean_text_final L text); [congruence|discriminate].
        -- destruct (H3 i t Hi Hne) as [row [Hin Hr]].
           exists row. rewrite Nat.add_succ_r. auto.
Qed.

(** In the batch of texts every row belongs to one item: it is labelled
    with the number of that item in the input, counted from 1 (not with its
    rank among the rows), holds the item's normalized text, which is not
    empty, the tokens of that text and the method "Direct Text"; and every
    item whose normalized text is not empty has such a row. *)
Theorem text_batch_rows (L : Lib) (D : Universal.Deepcut)
        (items : list str) (s : Universal.session D) :
  let rows := fst (UniversalPage.text_loop L D 1 items [] s) in
  Forall (fun row => exists i text,
              nth_error items i = Some text /\ text_row_ok L D (S i) text row) rows
  /\ (forall i text, nth_error items i = Some text ->
                     Universal.clean_text_final L text <> [] ->
                     exists row, In row rows /\ text_row_ok L D (S i) text row).
Proof.
  intros rows. destruct (text_loop_rows L D items 1 [] s) as [rs [s' [H1 [H2 H3]]]].
  unfold rows. rewrite H1. simpl. split; assumption.
Qed.

(** An item of the input box that is shorter than 40 characters and holds
    a stoplist keyword is normalized to the empty string, so the batch of
    texts gives it no row and does not call the tokenizer for it. *)
Theorem junk_item_has_no_row (L : Lib) (D : Universal.Deepcut)
        (user_input item : str) (idx : nat)
        (results : list UniversalPage.Row) (s : Universal.session D) :
  unescape_plain L ->
  In item (UniversalPage.parse_items user_input) ->
  Universal.is_junk item = true ->
  Universal.clean_text_final L item = []
  /\ UniversalPage.text_loop L D idx [item] results s = (results, s).
Proof.
  intros HL Hin Hj.
  assert (E : Universal.clean_text_final L item = []).
  { destruct (parse_items_one_line _ _ Hin) as [Hne [Ht Hl]].
    unfold Universal.clean_text_final.
    destruct (truthy item); simpl; [|reflexivity].
    rewrite Hl, line_loop_filter. simpl. rewrite (strip_fixed Ht), Hj. simpl.
    rewrite HL by tauto. reflexivity. }
  split; [exact E|]. simpl. rewrite E. reflexivity.
Qed.

Lemma junk_item_has_no_row_witness :
  Universal.clean_text_final Samples.stdlib (lit "Login to read more") = [].
Proof.
  apply (@junk_item_has_no_row Samples.stdlib no_deepcut
           (lit "  Login to read more  ") (lit "Login to read more") 1 [] tt
           sample_unescape_plain).
  - left. reflexivity.
  - reflexivity.
Defined.

(** ** The page of the simpler program *)







(** ** The labels of the texts *)

Lemma digits_inj d d' : digits d = digits d' -> d = d'.
Proof.
  revert d'. induction d; intros d' H; destruct d'; simpl in H;
    try discriminate; try reflexivity;
    injection H as H; f_equal; auto.
Qed.

Lemma str_of_nat_inj i j : str_of_nat i = str_of_nat j -> i = j.
Proof.
  unfold str_of_nat. intros H. apply digits_inj in H.
  rewrite <- (Unsigned.of_to i), <- (Unsigned.of_to j), H. reflexivity.
Qed.

Lemma text_label_inj i j : UniversalPage.text_label i = UniversalPage.text_label j -> i = j.
Proof.
  unfold UniversalPage.text_label. intros H. apply app_inv_head in H.
  apply str_of_nat_inj. assumption.
Qed.

Lemma numbers_with_row_bounds L idx todo :
  Forall (fun k => idx <= k)%nat (numbers_with_row L idx todo)
  /\ NoDup (numbers_with_row L idx todo).
Proof.
  revert idx. induction todo as [|text rest IH]; intros idx; simpl;
    [split; constructor|].
  destruct (IH (S idx)) as [Hb Hn].
  assert (Hb' : Forall (fun k => idx <= k)%nat (numbers_with_row L (S idx) rest)).
  { eapply Forall_impl; [|exact Hb]. simpl. intros. lia. }
  destruct (truthy (Universal.clean_text_final L text)); [|split; assumption].
  split; [constructor; [lia|assumption]|].
  constructor; [|assumption].
  intros Hin. rewrite Forall_forall in Hb. specialize (Hb _ Hin). lia.
Qed.

Lemma text_loop_sources L D todo idx results s :
  List.map UniversalPage.Source (fst (UniversalPage.text_loop L D idx todo results s)) =
  List.map UniversalPage.Source results
  ++ List.map UniversalPage.text_label (numbers_with_row L idx todo).
Proof.
  revert idx results s. induction todo as [|text rest IH]; intros idx results s; simpl.
  - rewrite app_nil_r. reflexivity.
  - destruct (truthy (Universal.clean_text_final L text)).
    + destruct (Universal.tokenize_text D (Universal.clean_text_final L text) s)
        as [tokens s1].
      rewrite IH, map_app, <- app_assoc. reflexivity.
    + apply IH.
Qed.

(** The rows of a batch of texts have pairwise different sources: the
    label of a row is the word for "text", a space and the decimal number of
    its item, and different numbers have different labels. *)
Theorem text_rows_have_distinct_sources
        (L : Lib) (D : Universal.Deepcut) (items : list str) (s : Universal.session D) :
  NoDup (List.map UniversalPage.Source (fst (UniversalPage.text_loop L D 1 items [] s)))
  /\ forall i j, UniversalPage.text_label i = UniversalPage.text_label j -> i = j.
Proof.
  split; [|apply text_label_inj].
  rewrite text_loop_sources. simpl.
  destruct (numbers_with_row_bounds L 1 items) as [_ Hn].
  induction Hn as [|k ks Hk Hks IH]; simpl; constructor; [|assumption].
  intros Hin. apply in_map_iff in Hin as [k' [Hl Hk']].
  apply text_label_inj in Hl. subst k'. contradiction.
Qed.

(** ** Rows without deepcut *)

Lemma split_rebuilds_clean L z :
  join [32] (split (Universal.clean_text_final L z)) = Universal.clean_text_final L z
  /\ (Universal.clean_text_final L z <> [] -> split (Universal.clean_text_final L z) <> []).
Proof.
  destruct (universal_clean_shape L z) as [_ [Hs Ht]]. split.
  - apply join_split_normal; assumption.
  - intros Hne. apply split_nonempty, trimmed_has_word; assumption.
Qed.

(** Without deepcut, every row of a batch, of URLs (in whatever order the
    fetches complete) or of texts, has at least one token, and its tokens
    joined by single spaces are its text. *)
Theorem rows_rebuild_their_text
        (L : Lib) (W : Web) (D : Universal.Deepcut)
        (completed items : list str) (s : Universal.session D) :
  Universal.DEEPCUT_AVAILABLE D = false ->
  let rebuilt row :=
    UniversalPage.Tokens row <> []
    /\ join [32] (UniversalPage.Tokens row) = UniversalPage.Raw row in
  Forall rebuilt (fst (UniversalPage.url_loop L W D completed [] s))
  /\ Forall rebuilt (fst (UniversalPage.text_loop L D 1 items [] s)).
Proof.
  intros Hd rebuilt. split.
  - destruct (url_loop_rows L W D completed [] s) as [rs [s' [H1 [_ H3]]]].
    rewrite H1. simpl. eapply Forall_impl; [|exact H3].
    intros row [Hg [Hne [s0 Hk]]]. unfold rebuilt. rewrite Hk.
    rewrite universal_fallback_split by assumption. simpl.
    assert (Hraw : UniversalPage.Raw row =
                   fst (Universal.get_content_universal L W (UniversalPage.Source row)))
      by (rewrite <- Hg; reflexivity).
    destruct (universal_content_cases L W (UniversalPage.Source row)) as [Hc|[z Hc]];
      rewrite <- Hraw in Hc; [congruence|].
    rewrite Hc in *. destruct (split_rebuilds_clean L z) as [Hj Hs]. auto.
  - destruct (text_loop_rows L D items 1 [] s) as [rs [s' [H1 [H2 _]]]].
    rewrite H1. simpl. eapply Forall_impl; [|exact H2].
    intros row [i [text [_ [_ [Hraw [Hne [_ [s0 Hk]]]]]]]]. unfold rebuilt. rewrite Hk.
    rewrite universal_fallback_split by assumption. simpl.
    rewrite Hraw in *. destruct (split_rebuilds_clean L text) as [Hj Hs]. auto.
Qed.

Lemma rows_rebuild_their_text_witness :
  List.map UniversalPage.Tokens
    (fst (UniversalPage.text_loop Samples.stdlib no_deepcut 1
            [lit "Login"; lit "one  two, three"] [] tt)) =
  [[lit "one"; lit "two"; lit "three"]]
  /\ Forall (fun row => join [32] (UniversalPage.Tokens row) = UniversalPage.Raw row)
            (fst (UniversalPage.text_loop Samples.stdlib no_deepcut 1
                    [lit "Login"; lit "one  two, three"] [] tt)).
Proof.
  split; [reflexivity|].
  destruct (@rows_rebuild_their_text Samples.stdlib one_good_url no_deepcut
              [] [lit "Login"; lit "one  two, three"] tt eq_refl) as [_ H].
  eapply Forall_impl; [|exact H]. simpl. tauto.
Defined.
